(** * Connection form configuration (airbyte-webapp, [formConfig.tsx])

    A shallow embedding of
    [airbyte-webapp/src/views/Connection/ConnectionForm/formConfig.tsx]:
    the sync-mode compatibility table, the merge of the form's normalization
    and transformation choices into an operation list, the normalized initial
    schema, the initial form values with their memoisation, and the parts of
    the validation schema that carry cross-field rules. *)

From stdpp Require Import base decidable option list strings pretty.
From Stdlib Require Import ZArith.

Local Open Scope string_scope.
Local Open Scope list_scope.

(** ** Enumerations of the API client *)

(** Modelled from the spec: the enumerations are declared in the API client and
    in [core/domain], which are not part of the sources at hand. Each has the
    members that [formConfig.tsx] names, under the names it uses. *)

Module SyncMode.
Inductive t : Set := FullRefresh | Incremental.
End SyncMode.

Module DestinationSyncMode.
Inductive t : Set := overwrite | append | append_dedup.
End DestinationSyncMode.

Module NormalizationType.
(** The two members the source names: [NormalizationType.BASIC] and
    [NormalizationType.RAW]. Both are non-empty string constants, hence
    truthy. *)
Inductive t : Set := BASIC | RAW.
End NormalizationType.

Module OperatorType.
Inductive t : Set := Normalization | Dbt.
End OperatorType.

Module NamespaceDefinitionType.
Inductive t : Set := source | destination | customformat.
End NamespaceDefinitionType.

#[global] Instance SyncMode_eq_dec : EqDecision SyncMode.t.
Proof. solve_decision. Defined.
#[global] Instance DestinationSyncMode_eq_dec : EqDecision DestinationSyncMode.t.
Proof. solve_decision. Defined.
#[global] Instance NormalizationType_eq_dec : EqDecision NormalizationType.t.
Proof. solve_decision. Defined.
#[global] Instance OperatorType_eq_dec : EqDecision OperatorType.t.
Proof. solve_decision. Defined.
#[global] Instance NamespaceDefinitionType_eq_dec : EqDecision NamespaceDefinitionType.t.
Proof. solve_decision. Defined.

(** ** JavaScript values that may be [undefined] or [null]

    [option] stands for a field that is either present or [undefined]; the
    schedule is the one field of the form where [null] is a value of its own
    ([schedule?: ConnectionSchedule | null]). *)

Inductive JsOpt (A : Type) : Type :=
| undefined : JsOpt A
| null : JsOpt A
| present : A → JsOpt A.
Arguments undefined {A}.
Arguments null {A}.
Arguments present {A} _.

#[global] Instance JsOpt_eq_dec `{EqDecision A} : EqDecision (JsOpt A).
Proof. solve_decision. Defined.

(** Truthiness of an optional boolean: [undefined] and [false] are falsy. *)
Definition truthy (b : option bool) : bool := default false b.

(** Truthiness of an optional object or non-empty string constant. *)
Definition is_present {A} (o : option A) : bool :=
  match o with Some _ => true | None => false end.

(** ** Operations *)

(** Modelled from the spec: [ConnectionSchedule], [OperationRead] and its
    operator configuration are types of the API client. The fields are those
    [formConfig.tsx] writes in [DEFAULT_SCHEDULE], [useDefaultTransformation]
    and [mapFormPropsToOperation] and reads in [getInitialNormalization]. *)

Record ConnectionSchedule := {
  sched_units : Z;
  sched_timeUnit : string
}.

Record OperatorNormalization := {
  norm_option : option NormalizationType.t
}.

Record OperatorDbt := {
  dbt_gitRepoUrl : string;
  dbt_dockerImage : string;
  dbt_dbtArguments : string
}.

Record OperatorConfiguration := {
  oc_operatorType : OperatorType.t;
  oc_normalization : option OperatorNormalization;
  oc_dbt : option OperatorDbt
}.

Record OperationRead := {
  op_name : string;
  op_workspaceId : string;
  op_operationId : string;
  op_operatorConfiguration : OperatorConfiguration
}.

(** A [Transformation] is pushed into an [OperationRead[]] as it is. *)
Abbreviation Transformation := OperationRead (only parsing).

#[global] Instance ConnectionSchedule_eq_dec : EqDecision ConnectionSchedule.
Proof. solve_decision. Defined.
#[global] Instance OperatorNormalization_eq_dec : EqDecision OperatorNormalization.
Proof. solve_decision. Defined.
#[global] Instance OperatorDbt_eq_dec : EqDecision OperatorDbt.
Proof. solve_decision. Defined.
#[global] Instance OperatorConfiguration_eq_dec : EqDecision OperatorConfiguration.
Proof. solve_decision. Defined.
#[global] Instance OperationRead_eq_dec : EqDecision OperationRead.
Proof. solve_decision. Defined.

(** Modelled from the spec: [isNormalizationTransformation] and
    [isDbtTransformation] are imported from [core/domain/connection/operation],
    which is not part of the sources at hand. The spec describes an operation
    as a tagged union of a normalization operation and a transformation
    operation; the predicates test the tag. *)
Definition isNormalizationTransformation (op : OperationRead) : bool :=
  bool_decide (oc_operatorType (op_operatorConfiguration op) = OperatorType.Normalization).

(** Modelled from the spec: as above, for the transformation tag. *)
Definition isDbtTransformation (op : OperationRead) : bool :=
  bool_decide (oc_operatorType (op_operatorConfiguration op) = OperatorType.Dbt).

(** The [values] argument of [mapFormPropsToOperation]: both fields are
    optional. *)
Record OperationFormValues := {
  v_transformations : option (list Transformation);
  v_normalization : option NormalizationType.t
}.

(** The operation pushed when no persisted normalization operation exists. *)
Definition newNormalizationOperation (workspaceId : string)
    (choice : NormalizationType.t) : OperationRead :=
  {| op_name := "Normalization";
     op_workspaceId := workspaceId;
     op_operationId := "";
     op_operatorConfiguration :=
       {| oc_operatorType := OperatorType.Normalization;
          oc_normalization := Some {| norm_option := Some choice |};
          oc_dbt := None |} |}.

(** [mapFormPropsToOperation]; [newOperations.push] is written as an append
    at the end, [initialOperations] defaults to the empty array. *)
Definition mapFormPropsToOperation (values : OperationFormValues)
    (initialOperations : option (list OperationRead))
    (workspaceId : string) : list OperationRead :=
  let initialOperations := default [] initialOperations in
  let newOperations : list OperationRead := [] in
  let newOperations :=
    match v_normalization values with
    | Some choice =>
        if bool_decide (choice ≠ NormalizationType.RAW) then
          match find isNormalizationTransformation initialOperations with
          | Some normalizationOperation => newOperations ++ [normalizationOperation]
          | None => newOperations ++ [newNormalizationOperation workspaceId choice]
          end
        else newOperations
    | None => newOperations
    end in
  match v_transformations values with
  | Some transformations => newOperations ++ transformations
  | None => newOperations
  end.

(** [getInitialTransformations]: [operations?.filter(isDbtTransformation) ?? []]. *)
Definition getInitialTransformations (operations : option (list OperationRead))
    : list Transformation :=
  default [] (List.filter isDbtTransformation <$> operations).

(** [getInitialNormalization]. The optional chain
    [operations?.find(..)?.operatorConfiguration?.normalization?.option] is a
    chain of binds; the edit-mode branch assigns [undefined], and the final
    [??] falls back to [BASIC]. *)
Definition getInitialNormalization (operations : option (list OperationRead))
    (isEditMode : option bool) : NormalizationType.t :=
  let initialNormalization : option NormalizationType.t :=
    ops ← operations;
    op ← find isNormalizationTransformation ops;
    normalization ← oc_normalization (op_operatorConfiguration op);
    norm_option normalization in
  let initialNormalization :=
    if negb (is_present initialNormalization) && truthy isEditMode
    then None
    else initialNormalization in
  default NormalizationType.BASIC initialNormalization.

(** ** Catalog *)

(** Modelled from the spec: the catalog types are declared in
    [core/domain/catalog]; the fields follow the spec's data model
    (StreamDescriptor, StreamConfig, SyncSchemaStream, SyncSchema) and the
    fields [formConfig.tsx] reads. *)

(** The stream as the source declares it. *)
Record AirbyteStream := {
  stream_name : string;
  stream_namespace : option string;
  stream_jsonSchema : string;
  stream_supportedSyncModes : list SyncMode.t;
  stream_sourceDefinedCursor : option bool;
  stream_defaultCursorField : list string;
  stream_sourceDefinedPrimaryKey : list (list string)
}.

(** The user-editable configuration of a stream. [selected], [primaryKey] and
    [cursorField] may be [undefined], as the validator's optional chaining
    allows for. *)
Record AirbyteStreamConfiguration := {
  cfg_selected : option bool;
  cfg_syncMode : SyncMode.t;
  cfg_destinationSyncMode : DestinationSyncMode.t;
  cfg_primaryKey : option (list (list string));
  cfg_cursorField : option (list string)
}.

Record SyncSchemaStream := {
  node_stream : AirbyteStream;
  node_config : AirbyteStreamConfiguration;
  node_id : option string
}.

Record SyncSchema := {
  streams : list SyncSchemaStream
}.

#[global] Instance AirbyteStream_eq_dec : EqDecision AirbyteStream.
Proof. solve_decision. Defined.
#[global] Instance AirbyteStreamConfiguration_eq_dec : EqDecision AirbyteStreamConfiguration.
Proof. solve_decision. Defined.
#[global] Instance SyncSchemaStream_eq_dec : EqDecision SyncSchemaStream.
Proof. solve_decision. Defined.
#[global] Instance SyncSchema_eq_dec : EqDecision SyncSchema.
Proof. solve_decision. Defined.

(** [{ ...apiNode, id: .. }] *)
Definition set_id (node : SyncSchemaStream) (id : string) : SyncSchemaStream :=
  {| node_stream := node_stream node;
     node_config := node_config node;
     node_id := Some id |}.

(** [{ ...streamNode, config: { ...streamNode.config, syncMode, destinationSyncMode } }] *)
Definition set_modes (node : SyncSchemaStream)
    (mode : SyncMode.t * DestinationSyncMode.t) : SyncSchemaStream :=
  {| node_stream := node_stream node;
     node_config :=
       {| cfg_selected := cfg_selected (node_config node);
          cfg_syncMode := mode.1;
          cfg_destinationSyncMode := mode.2;
          cfg_primaryKey := cfg_primaryKey (node_config node);
          cfg_cursorField := cfg_cursorField (node_config node) |};
     node_id := node_id node |}.

(** [{ ...streamNode, config: { ...streamNode.config, cursorField } }] *)
Definition set_cursorField (node : SyncSchemaStream)
    (cursorField : option (list string)) : SyncSchemaStream :=
  {| node_stream := node_stream node;
     node_config :=
       {| cfg_selected := cfg_selected (node_config node);
          cfg_syncMode := cfg_syncMode (node_config node);
          cfg_destinationSyncMode := cfg_destinationSyncMode (node_config node);
          cfg_primaryKey := cfg_primaryKey (node_config node);
          cfg_cursorField := cursorField |};
     node_id := node_id node |}.

(** ** Compatibility table and resolver *)

Definition SUPPORTED_MODES : list (SyncMode.t * DestinationSyncMode.t) :=
  [ (SyncMode.FullRefresh, DestinationSyncMode.overwrite);
    (SyncMode.FullRefresh, DestinationSyncMode.append);
    (SyncMode.Incremental, DestinationSyncMode.append);
    (SyncMode.Incremental, DestinationSyncMode.append_dedup) ].

(** Modelled from the spec: the priority order of the compatibility table.
    The candidates are the pairs of [SUPPORTED_MODES]. The spec ranks
    (incremental, append_dedup) above (full refresh, overwrite) and above
    (incremental, append); it does not rank the other pairs among themselves,
    and they follow here in the order of the array. *)
Definition priorityOrder : list (SyncMode.t * DestinationSyncMode.t) :=
  let preferred := (SyncMode.Incremental, DestinationSyncMode.append_dedup) in
  preferred :: List.filter (λ p, negb (bool_decide (p = preferred))) SUPPORTED_MODES.

(** Modelled from the spec: the resolver lives in [formConfigHelpers], which is
    not part of the sources at hand. It goes through the candidate pairs in
    priority order and returns the first pair whose source sync mode the stream
    supports and which the destination supports; [None] when no pair
    qualifies. The priority order and the destination's side of the test are
    parameters here. *)
Definition resolveWith (priority : list (SyncMode.t * DestinationSyncMode.t))
    (destinationSupports : SyncMode.t * DestinationSyncMode.t → bool)
    (supportedSyncModes : list SyncMode.t)
    : option (SyncMode.t * DestinationSyncMode.t) :=
  find (λ p, bool_decide (p.1 ∈ supportedSyncModes) && destinationSupports p)
       priority.

(** Modelled from the spec: [resolveDefaultMode] of [formConfigHelpers]. The
    caller hands over the destination's capabilities as the array of the
    destination sync modes it declares, so a pair is supported when its
    destination sync mode is a member of that array. *)
Definition resolveDefaultMode (supportedSyncModes : list SyncMode.t)
    (supportedDestinationSyncModes : list DestinationSyncMode.t)
    : option (SyncMode.t * DestinationSyncMode.t) :=
  resolveWith priorityOrder
              (λ p, bool_decide (p.2 ∈ supportedDestinationSyncModes))
              supportedSyncModes.


(** Modelled from the spec: [getOptimalSyncMode] of [formConfigHelpers]. It
    returns the stream with the resolved pair written into its configuration,
    or nothing when no pair qualifies (the caller filters on truthiness). An
    [undefined] capability array supports nothing: absent support is a plain
    [false]. *)
Definition getOptimalSyncMode (streamNode : SyncSchemaStream)
    (supportedDestinationSyncModes : option (list DestinationSyncMode.t))
    : option SyncSchemaStream :=
  set_modes streamNode <$>
    resolveDefaultMode (stream_supportedSyncModes (node_stream streamNode))
                       (default [] supportedDestinationSyncModes).

(** Modelled from the spec: [repairCursorField], the cursor verification of
    [formConfigHelpers]. When the chosen sync mode is incremental, the source
    does not define the cursor itself and no cursor field is set, the stream's
    default cursor path is substituted when there is one; otherwise the
    configuration is left as it is. *)
Definition repairCursorField (streamNode : SyncSchemaStream) : SyncSchemaStream :=
  let config := node_config streamNode in
  if bool_decide (cfg_syncMode config = SyncMode.Incremental)
     && negb (truthy (stream_sourceDefinedCursor (node_stream streamNode)))
     && bool_decide (default [] (cfg_cursorField config) = [])
     && negb (bool_decide (stream_defaultCursorField (node_stream streamNode) = []))
  then set_cursorField streamNode (Some (stream_defaultCursorField (node_stream streamNode)))
  else streamNode.

(** A stream for which the resolver finds a pair. *)
Definition resolvable (supportedDestinationSyncModes : option (list DestinationSyncMode.t))
    (apiNode : SyncSchemaStream) : bool :=
  is_present
    (resolveDefaultMode (stream_supportedSyncModes (node_stream apiNode))
                        (default [] supportedDestinationSyncModes)).

(** The streams of a catalog with their zero-based positions, from [first] on. *)
Definition positioned (first : nat) (schemaStreams : list SyncSchemaStream)
    : list (nat * SyncSchemaStream) :=
  imap (λ id apiNode, (first + id, apiNode)) schemaStreams.

(** ** Initial schema and initial values

    [verifySupportedSyncModes] and [verifyConfigCursorField] are imported from
    [formConfigHelpers] and called on the stream alone; they are parameters of
    the embedding. [SOURCE_NAMESPACE_TAG] is an imported constant. *)

Record DestinationDefinitionSpecificationRead := {
  dest_supportedDestinationSyncModes : option (list DestinationSyncMode.t);
  dest_supportsDbt : option bool;
  dest_supportsNormalization : option bool
}.

(** The connection being edited, or the partial one being created. *)
Record WebBackendConnectionRead := {
  conn_syncCatalog : SyncSchema;
  conn_schedule : JsOpt ConnectionSchedule;
  conn_prefix : option string;
  conn_namespaceDefinition : option NamespaceDefinitionType.t;
  conn_namespaceFormat : option string;
  conn_operations : option (list OperationRead)
}.

Record FormikConnectionFormValues := {
  fv_schedule : JsOpt ConnectionSchedule;
  fv_prefix : string;
  fv_syncCatalog : SyncSchema;
  fv_namespaceDefinition : option NamespaceDefinitionType.t;
  fv_namespaceFormat : string;
  fv_transformations : option (list Transformation);
  fv_normalization : option NormalizationType.t
}.

#[global] Instance DestinationDefinitionSpecificationRead_eq_dec :
  EqDecision DestinationDefinitionSpecificationRead.
Proof. solve_decision. Defined.
#[global] Instance WebBackendConnectionRead_eq_dec : EqDecision WebBackendConnectionRead.
Proof. solve_decision. Defined.
#[global] Instance FormikConnectionFormValues_eq_dec : EqDecision FormikConnectionFormValues.
Proof. solve_decision. Defined.

Definition DEFAULT_SCHEDULE : ConnectionSchedule :=
  {| sched_units := 24; sched_timeUnit := "hours" |}.

Section InitialState.
Variable verifySupportedSyncModes : SyncSchemaStream → SyncSchemaStream.
Variable verifyConfigCursorField : SyncSchemaStream → SyncSchemaStream.
Variable SOURCE_NAMESPACE_TAG : string.

(** The callback of [schema.streams.map] in [useInitialSchema];
    [id.toString()] is the decimal text of the position. *)
Definition initialSchemaNode
    (supportedDestinationSyncModes : option (list DestinationSyncMode.t))
    (id : nat) (apiNode : SyncSchemaStream) : option SyncSchemaStream :=
  let nodeWithId := set_id apiNode (pretty id) in
  let nodeStream := verifyConfigCursorField (verifySupportedSyncModes nodeWithId) in
  getOptimalSyncMode nodeStream supportedDestinationSyncModes.

(** The value [useInitialSchema] computes from its dependencies
    [schema.streams] and [supportedDestinationSyncModes]: the indexed map
    followed by [.filter(Boolean)]. *)
Definition useInitialSchema (schemaStreams : list SyncSchemaStream)
    (supportedDestinationSyncModes : option (list DestinationSyncMode.t))
    : SyncSchema :=
  {| streams :=
       omap (λ stream, stream)
            (imap (initialSchemaNode supportedDestinationSyncModes) schemaStreams) |}.

(** The value the second [useMemo] of [useInitialValues] computes from
    [initialSchema], [connection], [isEditMode] and [destDefinition]. *)
Definition initialValues (initialSchema : SyncSchema)
    (connection : WebBackendConnectionRead)
    (isEditMode : option bool)
    (destDefinition : DestinationDefinitionSpecificationRead)
    : FormikConnectionFormValues :=
  let operations := default [] (conn_operations connection) in
  {| fv_syncCatalog := initialSchema;
     fv_schedule :=
       match conn_schedule connection with
       | undefined => present DEFAULT_SCHEDULE
       | schedule => schedule
       end;
     fv_prefix :=
       match conn_prefix connection with
       | Some p => if bool_decide (p = "") then "" else p
       | None => ""
       end;
     fv_namespaceDefinition :=
       Some (default NamespaceDefinitionType.source (conn_namespaceDefinition connection));
     fv_namespaceFormat := default SOURCE_NAMESPACE_TAG (conn_namespaceFormat connection);
     fv_transformations :=
       if truthy (dest_supportsDbt destDefinition)
       then Some (getInitialTransformations (Some operations))
       else None;
     fv_normalization :=
       if truthy (dest_supportsNormalization destDefinition)
       then Some (getInitialNormalization (Some operations) isEditMode)
       else None |}.

(** [useInitialValues] as a function of its arguments. *)
Definition useInitialValues (connection : WebBackendConnectionRead)
    (destDefinition : DestinationDefinitionSpecificationRead)
    (isEditMode : option bool) : FormikConnectionFormValues :=
  let initialSchema :=
    useInitialSchema (streams (conn_syncCatalog connection))
                     (dest_supportedDestinationSyncModes destDefinition) in
  initialValues initialSchema connection isEditMode destDefinition.

(** The part of the form values [mapFormPropsToOperation] reads. *)
Definition operationValues (values : FormikConnectionFormValues) : OperationFormValues :=
  {| v_transformations := fv_transformations values;
     v_normalization := fv_normalization values |}.

(** The initial state: the initial form values together with the operation
    list they merge into. *)
Definition buildInitialState (connection : WebBackendConnectionRead)
    (destDefinition : DestinationDefinitionSpecificationRead)
    (isEditMode : option bool) (workspaceId : string)
    : FormikConnectionFormValues * list OperationRead :=
  let values := useInitialValues connection destDefinition isEditMode in
  (values,
   mapFormPropsToOperation (operationValues values) (conn_operations connection) workspaceId).

End InitialState.

(** ** Memoisation

    [useMemo(factory, deps)] keeps the last dependency array and the value
    computed from it; [factory] runs again when a dependency differs from the
    kept one. React compares dependencies with [Object.is]; the comparison is
    the parameter [same]. *)

Module Hooks.

Definition useMemo {D V : Type} (same : D → D → bool)
    (factory : unit → V) (deps : D) (cell : option (D * V))
    : V * option (D * V) :=
  match cell with
  | Some (kept, value) =>
      if same kept deps then (value, cell)
      else let value := factory () in (value, Some (deps, value))
  | None => let value := factory () in (value, Some (deps, value))
  end.

(** The dependency arrays of the two memoised computations. *)
Definition SchemaDeps : Type :=
  list SyncSchemaStream * option (list DestinationSyncMode.t).

Definition ValuesDeps : Type :=
  SyncSchema * WebBackendConnectionRead * option bool
  * DestinationDefinitionSpecificationRead.

(** The state React keeps for one component between renders: one cell per
    [useMemo] call, in call order. *)
Record State := {
  schemaCell : option (SchemaDeps * SyncSchema);
  valuesCell : option (ValuesDeps * FormikConnectionFormValues)
}.

Definition mount : State := {| schemaCell := None; valuesCell := None |}.

(** The arguments of one invocation. *)
Record Props := {
  connection : WebBackendConnectionRead;
  destDefinition : DestinationDefinitionSpecificationRead;
  isEditMode : option bool;
  workspaceId : string
}.

(** The values computed by the factories, defined above. *)
Local Abbreviation initialSchemaValue := useInitialSchema (only parsing).

Section Hooks.
Variable verifySupportedSyncModes : SyncSchemaStream → SyncSchemaStream.
Variable verifyConfigCursorField : SyncSchemaStream → SyncSchemaStream.
Variable SOURCE_NAMESPACE_TAG : string.
Variable sameSchemaDeps : SchemaDeps → SchemaDeps → bool.
Variable sameValuesDeps : ValuesDeps → ValuesDeps → bool.

(** [useInitialSchema] with its [useMemo]. *)
Definition useInitialSchema (schema : SyncSchema)
    (supportedDestinationSyncModes : option (list DestinationSyncMode.t))
    (cell : option (SchemaDeps * SyncSchema))
    : SyncSchema * option (SchemaDeps * SyncSchema) :=
  useMemo sameSchemaDeps
    (λ _, initialSchemaValue verifySupportedSyncModes verifyConfigCursorField
            (streams schema) supportedDestinationSyncModes)
    (streams schema, supportedDestinationSyncModes)
    cell.

(** [useInitialValues] with both [useMemo] calls. *)
Definition useInitialValues (connection : WebBackendConnectionRead)
    (destDefinition : DestinationDefinitionSpecificationRead)
    (isEditMode : option bool) (state : State)
    : FormikConnectionFormValues * State :=
  let '(initialSchema, schemaCell') :=
    useInitialSchema (conn_syncCatalog connection)
                     (dest_supportedDestinationSyncModes destDefinition)
                     (schemaCell state) in
  let '(values, valuesCell') :=
    useMemo sameValuesDeps
      (λ _, initialValues SOURCE_NAMESPACE_TAG initialSchema connection isEditMode
              destDefinition)
      (initialSchema, connection, isEditMode, destDefinition)
      (valuesCell state) in
  (values, {| schemaCell := schemaCell'; valuesCell := valuesCell' |}).

(** One invocation of the initial-state builder. *)
Definition buildInitialState (props : Props) (state : State)
    : (FormikConnectionFormValues * list OperationRead) * State :=
  let '(values, state') :=
    useInitialValues (connection props) (destDefinition props) (isEditMode props) state in
  ((values,
    mapFormPropsToOperation (operationValues values)
      (conn_operations (connection props)) (workspaceId props)),
   state').

(** The state after a sequence of earlier invocations. *)
Definition after (history : list Props) (state : State) : State :=
  foldl (λ state props, (buildInitialState props state).2) state history.

End Hooks.

(** Structural equality as the dependency comparison. *)
Definition structurally {D : Type} `{EqDecision D} (kept deps : D) : bool :=
  bool_decide (kept = deps).

End Hooks.

(** ** Validation schema *)

(** What validation reports. [createError] is the error the stream
    configuration test builds itself, with its message key and path;
    [fieldNotDefined] is the library's report for a [.defined()] field of the
    stream at the given position that is [undefined]. *)
Inductive Violation : Type :=
| createError (message path : string)
| fieldNotDefined (index : nat) (field : string).

#[global] Instance Violation_eq_dec : EqDecision Violation.
Proof. solve_decision. Defined.

(** [${this.parent.id}] in a template string. *)
Definition idText (id : option string) : string := default "undefined" id.

(** [x?.length === 0] *)
Definition length_is_zero {A} (x : option (list A)) : bool :=
  match x with
  | Some l => bool_decide (length l = 0)
  | None => false
  end.

(** The [test] function of [connectionSchema.config.validator]; [value] is
    the stream's configuration, [this.parent] the stream it belongs to. [None]
    stands for the result [true]; an [if] whose body is a single [if] is
    written as the conjunction of the two conditions. *)
Definition configValidator (parent : SyncSchemaStream) : option Violation :=
  let value := node_config parent in
  if negb (truthy (cfg_selected value)) then None
  else
    if bool_decide (DestinationSyncMode.append_dedup = cfg_destinationSyncMode value)
       && length_is_zero (cfg_primaryKey value)
    then Some (createError "connectionForm.primaryKey.required"
                 ("schema.streams[" +:+ idText (node_id parent) +:+ "].config.primaryKey"))
    else
      if bool_decide (SyncMode.Incremental = cfg_syncMode value)
         && (negb (truthy (stream_sourceDefinedCursor (node_stream parent)))
             && length_is_zero (cfg_cursorField value))
      then Some (createError "connectionForm.cursorField.required"
                   ("schema.streams[" +:+ idText (node_id parent) +:+ "].config.cursorField"))
      else None.

(** The violations of one element of [syncCatalog.streams]: the [.defined()]
    requirement on [cursorField], reported first, and the result of the
    configuration test. The other fields of the element only carry type
    requirements, which a typed stream meets. *)
Definition streamViolations (index : nat) (node : SyncSchemaStream) : list Violation :=
  (if is_present (cfg_cursorField (node_config node)) then []
   else [fieldNotDefined index "cursorField"])
  ++ option_list (configValidator node).

(** The violations of [syncCatalog]: those of every stream, in order. *)
Definition syncCatalogViolations (syncCatalog : SyncSchema) : list Violation :=
  mjoin (imap streamViolations (streams syncCatalog)).

Definition isMissingPrimaryKey (v : Violation) : bool :=
  match v with
  | createError message _ => bool_decide (message = "connectionForm.primaryKey.required")
  | fieldNotDefined _ _ => false
  end.

Definition isMissingCursorField (v : Violation) : bool :=
  match v with
  | createError message _ => bool_decide (message = "connectionForm.cursorField.required")
  | fieldNotDefined _ _ => false
  end.

(** The schedule as the form holds it: an object whose two fields may be
    missing. *)
Record ScheduleValue := {
  units : option Z;
  timeUnit : option string
}.

(** [yup.number().required(..)]: the value must be there. *)
Definition number_required (value : option Z) : bool := is_present value.

(** [yup.string().required(..)]: the value must be there and not be the empty
    string. *)
Definition string_required (value : option string) : bool :=
  match value with
  | Some s => negb (bool_decide (s = ""))
  | None => false
  end.

(** The [schedule] rule:
    [yup.object({ units, timeUnit }).nullable().defined(..)]. [.nullable()]
    admits [null], for which the fields are not looked at; [.defined(..)]
    refuses [undefined]. [true] stands for acceptance. *)
Definition scheduleSchema (schedule : JsOpt ScheduleValue) : bool :=
  match schedule with
  | undefined => false
  | null => true
  | present value => number_required (units value) && string_required (timeUnit value)
  end.

(** ** Sample data *)

Definition dbtOperation (operationId name : string) : OperationRead :=
  {| op_name := name;
     op_workspaceId := "workspace-1";
     op_operationId := operationId;
     op_operatorConfiguration :=
       {| oc_operatorType := OperatorType.Dbt;
          oc_normalization := None;
          oc_dbt := Some {| dbt_gitRepoUrl := "https://example.org/dbt.git";
                            dbt_dockerImage := "fishtownanalytics/dbt:0.19.1";
                            dbt_dbtArguments := "run" |} |} |}.

Definition persistedNormalization : OperationRead :=
  {| op_name := "Normalization";
     op_workspaceId := "workspace-1";
     op_operationId := "op-42";
     op_operatorConfiguration :=
       {| oc_operatorType := OperatorType.Normalization;
          oc_normalization := Some {| norm_option := Some NormalizationType.BASIC |};
          oc_dbt := None |} |}.

Definition twoTransformations : list Transformation :=
  [dbtOperation "op-7" "first"; dbtOperation "" "second"].

Definition basicWithTransformations : OperationFormValues :=
  {| v_transformations := Some twoTransformations;
     v_normalization := Some NormalizationType.BASIC |}.

Definition rawWithTransformations : OperationFormValues :=
  {| v_transformations := Some twoTransformations;
     v_normalization := Some NormalizationType.RAW |}.

Definition sampleStream (name : string) (supportedSyncModes : list SyncMode.t)
    (sourceDefinedCursor : option bool) : AirbyteStream :=
  {| stream_name := name;
     stream_namespace := None;
     stream_jsonSchema := "{}";
     stream_supportedSyncModes := supportedSyncModes;
     stream_sourceDefinedCursor := sourceDefinedCursor;
     stream_defaultCursorField := [];
     stream_sourceDefinedPrimaryKey := [] |}.

Definition sampleConfig (selected : bool) (syncMode : SyncMode.t)
    (destinationSyncMode : DestinationSyncMode.t)
    (primaryKey : option (list (list string))) (cursorField : option (list string))
    : AirbyteStreamConfiguration :=
  {| cfg_selected := Some selected;
     cfg_syncMode := syncMode;
     cfg_destinationSyncMode := destinationSyncMode;
     cfg_primaryKey := primaryKey;
     cfg_cursorField := cursorField |}.

(** A stream as discovery hands it over: no id yet. *)
Definition discovered (name : string) (supportedSyncModes : list SyncMode.t)
    : SyncSchemaStream :=
  {| node_stream := sampleStream name supportedSyncModes None;
     node_config :=
       sampleConfig true SyncMode.FullRefresh DestinationSyncMode.append (Some [])
         (Some []);
     node_id := None |}.

Definition bothModes : SyncSchemaStream :=
  discovered "users" [SyncMode.FullRefresh; SyncMode.Incremental].

Definition fullRefreshOnly : SyncSchemaStream :=
  discovered "events" [SyncMode.FullRefresh].

Definition incrementalOnly : SyncSchemaStream :=
  discovered "orders" [SyncMode.Incremental].

Definition mixedCatalog : list SyncSchemaStream :=
  [bothModes; fullRefreshOnly; incrementalOnly].

Definition keepNode (node : SyncSchemaStream) : SyncSchemaStream := node.

Definition existingConnection : WebBackendConnectionRead :=
  {| conn_syncCatalog := {| streams := mixedCatalog |};
     conn_schedule := null;
     conn_prefix := Some "raw_";
     conn_namespaceDefinition := None;
     conn_namespaceFormat := None;
     conn_operations := Some twoTransformations |}.

Definition dedupDestination : DestinationDefinitionSpecificationRead :=
  {| dest_supportedDestinationSyncModes := Some [DestinationSyncMode.append_dedup];
     dest_supportsDbt := Some true;
     dest_supportsNormalization := Some true |}.

(** A stream of the edited catalog, with its id. *)
Definition edited (id : string) (sourceDefinedCursor : option bool)
    (config : AirbyteStreamConfiguration) : SyncSchemaStream :=
  {| node_stream :=
       sampleStream "users" [SyncMode.FullRefresh; SyncMode.Incremental]
         sourceDefinedCursor;
     node_config := config;
     node_id := Some id |}.

Definition dedupNoKey : SyncSchemaStream :=
  edited "3" None
    (sampleConfig true SyncMode.FullRefresh DestinationSyncMode.append_dedup (Some [])
       (Some [])).

Definition dedupWithKey : SyncSchemaStream :=
  edited "3" None
    (sampleConfig true SyncMode.FullRefresh DestinationSyncMode.append_dedup
       (Some [["id"]]) (Some [])).

Definition incrementalNoCursor : SyncSchemaStream :=
  edited "1" (Some false)
    (sampleConfig true SyncMode.Incremental DestinationSyncMode.append (Some [])
       (Some [])).

Definition incrementalNoCursorUnselected : SyncSchemaStream :=
  edited "1" (Some false)
    (sampleConfig false SyncMode.Incremental DestinationSyncMode.append (Some [])
       (Some [])).

Definition dedupNoKeyNoCursor : SyncSchemaStream :=
  edited "2" (Some false)
    (sampleConfig true SyncMode.Incremental DestinationSyncMode.append_dedup (Some [])
       (Some [])).

Definition dedupKeyUndefined : SyncSchemaStream :=
  edited "5" None
    (sampleConfig true SyncMode.FullRefresh DestinationSyncMode.append_dedup None
       (Some [])).

Definition dedupKeyUndefinedNoCursor : SyncSchemaStream :=
  edited "4" (Some false)
    (sampleConfig true SyncMode.Incremental DestinationSyncMode.append_dedup None
       (Some [])).

(** The two violations the configuration test can build for a stream. *)
Definition missingPrimaryKey (node : SyncSchemaStream) : Violation :=
  createError "connectionForm.primaryKey.required"
    ("schema.streams[" +:+ idText (node_id node) +:+ "].config.primaryKey").

Definition missingCursorField (node : SyncSchemaStream) : Violation :=
  createError "connectionForm.cursorField.required"
    ("schema.streams[" +:+ idText (node_id node) +:+ "].config.cursorField").

(** The conditions under which the two rules of the configuration test ask
    for a field. *)
Definition primaryKeyRuleFires (node : SyncSchemaStream) : bool :=
  bool_decide (DestinationSyncMode.append_dedup = cfg_destinationSyncMode (node_config node))
  && length_is_zero (cfg_primaryKey (node_config node)).

Definition cursorFieldRuleFires (node : SyncSchemaStream) : bool :=
  bool_decide (SyncMode.Incremental = cfg_syncMode (node_config node))
  && (negb (truthy (stream_sourceDefinedCursor (node_stream node)))
      && length_is_zero (cfg_cursorField (node_config node))).

(** Two invocations of the builder with different arguments. *)
Definition editExisting : Hooks.Props :=
  {| Hooks.connection := existingConnection;
     Hooks.destDefinition := dedupDestination;
     Hooks.isEditMode := Some true;
     Hooks.workspaceId := "workspace-1" |}.

Definition createFresh : Hooks.Props :=
  {| Hooks.connection :=
       {| conn_syncCatalog := {| streams := [fullRefreshOnly] |};
          conn_schedule := undefined;
          conn_prefix := None;
          conn_namespaceDefinition := None;
          conn_namespaceFormat := None;
          conn_operations := None |};
     Hooks.destDefinition :=
       {| dest_supportedDestinationSyncModes := Some [DestinationSyncMode.overwrite];
          dest_supportsDbt := None;
          dest_supportsNormalization := Some true |};
     Hooks.isEditMode := None;
     Hooks.workspaceId := "workspace-1" |}.

(** A memo cell agrees with the function [compute] of the dependencies when
    the value it keeps is the one [compute] gives for the dependencies it
    keeps. *)
Definition cell_agrees {D V : Type} (compute : D → V) (cell : option (D * V)) : Prop :=
  ∀ deps value, cell = Some (deps, value) → value = compute deps.

(** Every value the state keeps is the one its kept dependencies compute. *)
Definition cells_agree (schemaOf : Hooks.SchemaDeps → SyncSchema)
    (valuesOf : Hooks.ValuesDeps → FormikConnectionFormValues)
    (state : Hooks.State) : Prop :=
  cell_agrees schemaOf (Hooks.schemaCell state)
  ∧ cell_agrees valuesOf (Hooks.valuesCell state).

(** ** The rest of the form configuration *)

(** [useDefaultTransformation]; the workspace is the one
    [useCurrentWorkspace] returns, whose id is the argument here. *)
Definition useDefaultTransformation (workspaceId : string) : Transformation :=
  {| op_operationId := "";
     op_name := "My dbt transformations";
     op_workspaceId := workspaceId;
     op_operatorConfiguration :=
       {| oc_operatorType := OperatorType.Dbt;
          oc_normalization := None;
          oc_dbt := Some {| dbt_gitRepoUrl := "";
                            dbt_dockerImage := "fishtownanalytics/dbt:0.19.1";
                            dbt_dbtArguments := "run" |} |} |}.

(** The [namespaceDefinition] rule:
    [yup.string().oneOf([source, destination, customformat]).required(..)].
    Every member of the enumeration is listed, so a typed value only has to be
    there. *)
Definition namespaceDefinitionSchema
    (namespaceDefinition : option NamespaceDefinitionType.t) : bool :=
  is_present namespaceDefinition.

(** The [namespaceFormat] rule:
    [yup.string().when("namespaceDefinition", { is: customformat, then: yup.string().required(..) })]. *)
Definition namespaceFormatSchema
    (namespaceDefinition : option NamespaceDefinitionType.t)
    (namespaceFormat : option string) : bool :=
  if bool_decide (namespaceDefinition = Some NamespaceDefinitionType.customformat)
  then string_required namespaceFormat
  else true.

(** The schedule of the form values as the schedule rule sees it: a typed
    schedule object has both of its fields. *)
Definition scheduleValue (schedule : JsOpt ConnectionSchedule) : JsOpt ScheduleValue :=
  match schedule with
  | undefined => undefined
  | null => null
  | present s =>
      present {| units := Some (sched_units s); timeUnit := Some (sched_timeUnit s) |}
  end.

(** An entry of [FrequencyConfig.json]: [config] is a schedule or [null],
    [simpleText] is optional. *)
Record FrequencyItem := {
  freq_text : string;
  freq_simpleText : option string;
  freq_config : JsOpt ConnectionSchedule
}.

(** A row of the frequency dropdown. *)
Record IDataItem := {
  item_value : JsOpt ConnectionSchedule;
  item_label : string
}.

(** [a || b] on an optional string: [undefined] and the empty string are
    falsy. *)
Definition string_or (a : option string) (b : string) : string :=
  match a with
  | Some s => if bool_decide (s = "") then b else s
  | None => b
  end.

(** [useFrequencyDropdownData]: the value its [useMemo] computes.
    [FrequencyConfig] is the imported JSON table and [formatMessage] the
    formatter of [useIntl], applied to a message id and the [value] to
    interpolate; both are parameters. *)
Definition useFrequencyDropdownData (FrequencyConfig : list FrequencyItem)
    (formatMessage : string → string → string) : list IDataItem :=
  (λ item,
     {| item_value := freq_config item;
        item_label :=
          match freq_config item with
          | null => freq_text item
          | _ =>
              formatMessage "form.every" (string_or (freq_simpleText item) (freq_text item))
          end |}) <$> FrequencyConfig.

(** ** More sample data *)

Definition rawNormalization : OperationRead :=
  {| op_name := "Normalization";
     op_workspaceId := "workspace-1";
     op_operationId := "op-43";
     op_operatorConfiguration :=
       {| oc_operatorType := OperatorType.Normalization;
          oc_normalization := Some {| norm_option := Some NormalizationType.RAW |};
          oc_dbt := None |} |}.

Definition persistedOperations : list OperationRead :=
  persistedNormalization :: twoTransformations.

Definition persistedConnection : WebBackendConnectionRead :=
  {| conn_syncCatalog := {| streams := mixedCatalog |};
     conn_schedule := present {| sched_units := 6; sched_timeUnit := "hours" |};
     conn_prefix := None;
     conn_namespaceDefinition := Some NamespaceDefinitionType.customformat;
     conn_namespaceFormat := Some "${SOURCE_NAMESPACE}_copy";
     conn_operations := Some persistedOperations |}.

Definition plainDestination : DestinationDefinitionSpecificationRead :=
  {| dest_supportedDestinationSyncModes := Some [DestinationSyncMode.overwrite];
     dest_supportsDbt := None;
     dest_supportsNormalization := Some false |}.

Definition frequencies : list FrequencyItem :=
  [ {| freq_text := "manual"; freq_simpleText := None; freq_config := null |};
    {| freq_text := "5 min"; freq_simpleText := Some "5 minutes";
       freq_config := present {| sched_units := 5; sched_timeUnit := "minutes" |} |};
    {| freq_text := "24 hours"; freq_simpleText := Some "";
       freq_config := present DEFAULT_SCHEDULE |} ].

Definition everyMessage (id value : string) : string := id +:+ ":" +:+ value.

Definition keyedWithCursor : SyncSchemaStream :=
  edited "7" (Some false)
    (sampleConfig true SyncMode.Incremental DestinationSyncMode.append_dedup
       (Some [["id"]]) (Some ["updated_at"])).

(** * Properties *)

(** ** The operation merger *)

Lemma find_first {A} (p : A → bool) (l : list A) (x : A) :
  find p l = Some x →
  ∃ i, l !! i = Some x ∧ p x = true ∧ ∀ j y, j < i → l !! j = Some y → p y = false.
Proof.
  induction l as [|a l IH]; simpl; [done|].
  destruct (p a) eqn:Hpa.
  - intros [= ->]. exists 0. split_and!; [done..|]. intros j y Hj. lia.
  - intros (i & Hi & Hx & Hfirst)%IH. exists (S i). split_and!; [done..|].
    intros [|j] y Hj; simpl.
    + by intros [= <-].
    + apply Hfirst. lia.
Qed.

Lemma find_is_None {A} (p : A → bool) (l : list A) :
  find p l = None ↔ ∀ x, x ∈ l → p x = false.
Proof.
  induction l as [|a l IH]; simpl.
  - split; [|done]. intros _ x Hx. by apply elem_of_nil in Hx.
  - destruct (p a) eqn:Hpa.
    + split; [done|]. intros H. specialize (H a (list_elem_of_here _ _)). congruence.
    + rewrite IH. split.
      * intros H x [->|Hx]%elem_of_cons; auto.
      * intros H x Hx. apply H. by right.
Qed.

(** The general shape of the merger's result: the normalization operation, if
    one is emitted, followed by the transformation list. *)
Lemma mapFormPropsToOperation_shape values initialOperations workspaceId :
  mapFormPropsToOperation values initialOperations workspaceId =
  match v_normalization values with
  | Some choice =>
      if bool_decide (choice ≠ NormalizationType.RAW) then
        [default (newNormalizationOperation workspaceId choice)
                 (find isNormalizationTransformation (default [] initialOperations))]
      else []
  | None => []
  end ++ default [] (v_transformations values).
Proof.
  unfold mapFormPropsToOperation.
  destruct (v_normalization values) as [choice|], (v_transformations values) as [ts|];
    simpl; rewrite ?app_nil_r; try done;
    case_bool_decide; simpl; rewrite ?app_nil_r; try done;
    by destruct (find _ _).
Qed.

Lemma emitted_is_normalization workspaceId choice operations :
  isNormalizationTransformation
    (default (newNormalizationOperation workspaceId choice)
             (find isNormalizationTransformation operations)) = true.
Proof.
  destruct (find _ _) as [op|] eqn:Hfind; simpl; [|done].
  by apply find_first in Hfind as (_ & _ & ? & _).
Qed.

(** C2. Whatever the input of [mapFormPropsToOperation]: with a normalization
    choice that is not the raw one, the result is a normalization operation at
    index 0 followed by the transformation list as it is, in its order (an
    absent list counting as the empty one); with no choice or the raw one, the
    result is the transformation list and nothing else. Nothing is duplicated
    or dropped. *)
Theorem mapFormPropsToOperation_order values initialOperations workspaceId :
  let transformations := default [] (v_transformations values) in
  let result := mapFormPropsToOperation values initialOperations workspaceId in
  (∀ choice,
      v_normalization values = Some choice → choice ≠ NormalizationType.RAW →
      ∃ normalizationOperation,
        isNormalizationTransformation normalizationOperation = true
        ∧ result = normalizationOperation :: transformations
        ∧ result !! 0 = Some normalizationOperation
        ∧ (∀ i, result !! S i = transformations !! i)
        ∧ length result = S (length transformations))
  ∧ (v_normalization values = None
     ∨ v_normalization values = Some NormalizationType.RAW →
     result = transformations).
Proof.
  intros transformations result. subst result.
  rewrite mapFormPropsToOperation_shape. fold transformations. split.
  - intros choice -> Hraw. rewrite bool_decide_eq_true_2 by done.
    eexists. split; [apply emitted_is_normalization|]. by split_and!.
  - by intros [-> | ->].
Qed.

Lemma mapFormPropsToOperation_order_witness :
  (∃ normalizationOperation,
      isNormalizationTransformation normalizationOperation = true
      ∧ mapFormPropsToOperation basicWithTransformations (Some [persistedNormalization])
          "workspace-1"
        = normalizationOperation :: twoTransformations)
  ∧ mapFormPropsToOperation rawWithTransformations (Some [persistedNormalization])
      "workspace-1"
    = twoTransformations.
Proof.
  pose proof (mapFormPropsToOperation_order basicWithTransformations
                (Some [persistedNormalization]) "workspace-1") as [Hnorm _].
  pose proof (mapFormPropsToOperation_order rawWithTransformations
                (Some [persistedNormalization]) "workspace-1") as [_ Hraw].
  split.
  - destruct (Hnorm NormalizationType.BASIC) as (op & Hop & Heq & _);
      [reflexivity | discriminate |].
    exists op. by split.
  - apply Hraw. right. reflexivity.
Defined.

(** C3. With a normalization choice that is not the raw one: when the
    persisted operations contain a normalization operation, the emitted
    normalization operation is the persisted one itself (the first of them),
    operation id included; otherwise it is a new normalization operation that
    carries the chosen option and the empty operation id. *)
Theorem mapFormPropsToOperation_identity values initialOperations workspaceId choice :
  v_normalization values = Some choice →
  choice ≠ NormalizationType.RAW →
  let operations := default [] initialOperations in
  let result := mapFormPropsToOperation values initialOperations workspaceId in
  ((∃ op, op ∈ operations ∧ isNormalizationTransformation op = true) →
   ∃ i persisted,
     operations !! i = Some persisted
     ∧ isNormalizationTransformation persisted = true
     ∧ (∀ j op, j < i → operations !! j = Some op →
                isNormalizationTransformation op = false)
     ∧ head result = Some persisted
     ∧ (op_operationId <$> head result) = Some (op_operationId persisted))
  ∧ ((∀ op, op ∈ operations → isNormalizationTransformation op = false) →
     ∃ synthesized,
       head result = Some synthesized
       ∧ (synthesized ∉ operations)
       ∧ op_operationId synthesized = ""
       ∧ op_name synthesized = "Normalization"
       ∧ op_workspaceId synthesized = workspaceId
       ∧ op_operatorConfiguration synthesized
         = {| oc_operatorType := OperatorType.Normalization;
              oc_normalization := Some {| norm_option := Some choice |};
              oc_dbt := None |}).
Proof.
  intros Hchoice Hraw operations result. subst result.
  rewrite mapFormPropsToOperation_shape, Hchoice, bool_decide_eq_true_2 by done.
  fold operations. simpl. split.
  - intros (op & Hin & Hop).
    destruct (find isNormalizationTransformation operations) as [persisted|] eqn:Hfind.
    + apply find_first in Hfind as (i & Hi & Hp & Hfirst).
      exists i, persisted. by split_and!.
    + rewrite find_is_None in Hfind. rewrite (Hfind op Hin) in Hop. done.
  - intros Hnone. apply find_is_None in Hnone as Hfind. rewrite Hfind. simpl.
    eexists. split; [done|]. split_and!; try done.
    intros Hin. by apply Hnone in Hin.
Qed.

Lemma mapFormPropsToOperation_identity_witness :
  (∃ i persisted,
      (twoTransformations ++ [persistedNormalization]) !! i = Some persisted
      ∧ head (mapFormPropsToOperation basicWithTransformations
                (Some (twoTransformations ++ [persistedNormalization])) "workspace-1")
        = Some persisted)
  ∧ (∃ synthesized,
        head (mapFormPropsToOperation basicWithTransformations (Some twoTransformations)
                "workspace-1")
        = Some synthesized
        ∧ op_operationId synthesized = "").
Proof.
  split.
  - destruct (mapFormPropsToOperation_identity basicWithTransformations
                (Some (twoTransformations ++ [persistedNormalization])) "workspace-1"
                NormalizationType.BASIC) as [Hreuse _]; [reflexivity | discriminate |].
    destruct Hreuse as (i & persisted & Hi & _ & _ & Hhead & _).
    + exists persistedNormalization. split; [|reflexivity].
      apply list_elem_of_lookup. by exists 2.
    + by exists i, persisted.
  - destruct (mapFormPropsToOperation_identity basicWithTransformations
                (Some twoTransformations) "workspace-1"
                NormalizationType.BASIC) as [_ Hnew]; [reflexivity | discriminate |].
    destruct Hnew as (synthesized & Hhead & _ & Hid & _).
    + intros op Hin. simpl in Hin. unfold twoTransformations in Hin.
      apply elem_of_cons in Hin as [-> | Hin]; [reflexivity|].
      apply elem_of_cons in Hin as [-> | Hin]; [reflexivity|].
      by apply elem_of_nil in Hin.
    + by exists synthesized.
Defined.

(** ** The initial normalization *)

Lemma getInitialNormalization_isEditMode operations isEditMode :
  getInitialNormalization operations isEditMode
  = getInitialNormalization operations None.
Proof.
  unfold getInitialNormalization.
  destruct (_ ≫= _) as [n|]; simpl; [done|].
  by destruct (truthy isEditMode).
Qed.

(** C4, as the code has it. In edit mode, for persisted operations without a
    normalization operation, [getInitialNormalization] returns the default
    option [BASIC], as it does outside edit mode, and the seeded
    normalization field holds [BASIC]: it is not left absent, and the raw
    option is not selected. *)
Theorem getInitialNormalization_edit_mode tag initialSchema connection destDefinition
    operations :
  conn_operations connection = Some operations →
  (∀ op, op ∈ operations → isNormalizationTransformation op = false) →
  truthy (dest_supportsNormalization destDefinition) = true →
  getInitialNormalization (Some operations) (Some true) = NormalizationType.BASIC
  ∧ getInitialNormalization (Some operations) (Some false) = NormalizationType.BASIC
  ∧ fv_normalization (initialValues tag initialSchema connection (Some true) destDefinition)
    = Some NormalizationType.BASIC.
Proof.
  intros Hops Hnone%find_is_None Hsupports.
  assert (∀ e, getInitialNormalization (Some operations) e = NormalizationType.BASIC)
    as Hbasic.
  { intros e. rewrite getInitialNormalization_isEditMode.
    unfold getInitialNormalization. simpl. by rewrite Hnone. }
  split_and!; [done..|].
  unfold initialValues. simpl. rewrite Hsupports, Hops. simpl.
  f_equal. apply Hbasic.
Qed.

Lemma getInitialNormalization_edit_mode_witness :
  getInitialNormalization (Some twoTransformations) (Some true) = NormalizationType.BASIC
  ∧ getInitialNormalization (Some twoTransformations) (Some false) = NormalizationType.BASIC
  ∧ fv_normalization
      (initialValues "tag" {| streams := [] |} existingConnection (Some true)
         dedupDestination)
    = Some NormalizationType.BASIC.
Proof.
  apply (getInitialNormalization_edit_mode "tag" {| streams := [] |} existingConnection
           dedupDestination twoTransformations).
  - reflexivity.
  - intros op Hin. unfold twoTransformations in Hin.
    apply elem_of_cons in Hin as [-> | Hin]; [reflexivity|].
    apply elem_of_cons in Hin as [-> | Hin]; [reflexivity|].
    by apply elem_of_nil in Hin.
  - reflexivity.
Defined.

(** ** The compatibility resolver *)





(** ** The schema normalizer *)

Lemma repairCursorField_keeps node :
  node_id (repairCursorField node) = node_id node
  ∧ node_stream (repairCursorField node) = node_stream node.
Proof. unfold repairCursorField. by destruct (_ && _). Qed.

Section SchemaNormalizer.
Variable verifySupportedSyncModes : SyncSchemaStream → SyncSchemaStream.
Variable verifyConfigCursorField : SyncSchemaStream → SyncSchemaStream.
Hypothesis verifySupportedSyncModes_keeps :
  ∀ node, node_id (verifySupportedSyncModes node) = node_id node
          ∧ node_stream (verifySupportedSyncModes node) = node_stream node.
Hypothesis verifyConfigCursorField_keeps :
  ∀ node, node_id (verifyConfigCursorField node) = node_id node
          ∧ node_stream (verifyConfigCursorField node) = node_stream node.

Local Abbreviation callback :=
  (initialSchemaNode verifySupportedSyncModes verifyConfigCursorField).
Local Abbreviation normalize :=
  (useInitialSchema verifySupportedSyncModes verifyConfigCursorField).

Lemma initialSchemaNode_kept caps id apiNode :
  resolvable caps apiNode = true →
  ∃ node, callback caps id apiNode = Some node
          ∧ node_id node = Some (pretty id)
          ∧ node_stream node = node_stream apiNode.
Proof.
  unfold resolvable, initialSchemaNode, getOptimalSyncMode.
  destruct (verifyConfigCursorField_keeps
              (verifySupportedSyncModes (set_id apiNode (pretty id)))) as [Hid Hstream].
  destruct (verifySupportedSyncModes_keeps (set_id apiNode (pretty id))) as [Hid' Hstream'].
  rewrite Hstream, Hstream'. simpl.
  destruct (resolveDefaultMode _ _) as [mode|]; [|done]. intros _.
  eexists. split; [done|]. simpl. by rewrite Hid, Hid', Hstream, Hstream'.
Qed.

Lemma initialSchemaNode_dropped caps id apiNode :
  resolvable caps apiNode = false → callback caps id apiNode = None.
Proof.
  unfold resolvable, initialSchemaNode, getOptimalSyncMode.
  destruct (verifyConfigCursorField_keeps
              (verifySupportedSyncModes (set_id apiNode (pretty id)))) as [_ Hstream].
  destruct (verifySupportedSyncModes_keeps (set_id apiNode (pretty id))) as [_ Hstream'].
  rewrite Hstream, Hstream'. simpl.
  by destruct (resolveDefaultMode _ _).
Qed.

(** The normalizer, position by position: the output lists, in input order,
    the resolvable streams, each under the text of its input position. *)
Lemma normalize_from caps schemaStreams first :
  (λ node, (node_id node, node_stream node))
    <$> omap (λ stream, stream) (imap (λ id, callback caps (first + id)) schemaStreams)
  = (λ p, (Some (pretty p.1), node_stream p.2))
      <$> List.filter (λ p, resolvable caps p.2) (positioned first schemaStreams).
Proof.
  revert first. induction schemaStreams as [|apiNode rest IH]; intros first; [done|].
  unfold positioned. rewrite !imap_cons. cbn [omap list_omap List.filter snd].
  rewrite Nat.add_0_r.
  assert (imap ((λ id, callback caps (first + id)) ∘ S) rest
          = imap (λ id, callback caps (S first + id)) rest) as ->.
  { apply imap_ext. intros i x _. simpl. f_equal. lia. }
  assert (imap ((λ id apiNode, (first + id, apiNode)) ∘ S) rest
          = positioned (S first) rest) as ->.
  { apply imap_ext. intros i x _. simpl. f_equal. lia. }
  destruct (resolvable caps apiNode) eqn:Hres.
  - destruct (initialSchemaNode_kept caps first apiNode Hres)
      as (node & -> & Hid & Hstream).
    cbn. rewrite Hid, Hstream. f_equal. exact (IH (S first)).
  - rewrite (initialSchemaNode_dropped caps first apiNode Hres). exact (IH (S first)).
Qed.

Lemma filter_positioned caps schemaStreams first :
  snd <$> List.filter (λ p, resolvable caps p.2) (positioned first schemaStreams)
  = List.filter (resolvable caps) schemaStreams.
Proof.
  revert first. induction schemaStreams as [|apiNode rest IH]; intros first; [done|].
  unfold positioned. rewrite imap_cons. cbn [List.filter snd].
  assert (imap ((λ id apiNode, (first + id, apiNode)) ∘ S) rest
          = positioned (S first) rest) as ->.
  { apply imap_ext. intros i x _. simpl. f_equal. lia. }
  destruct (resolvable caps apiNode); cbn; by rewrite (IH (S first)).
Qed.

(** C5. For every raw catalog and destination capabilities, the normalized
    schema lists, in the order of the input, exactly the streams for which a
    sync-mode pair resolves, each with the text of its zero-based input
    position as its id; the other streams are dropped. A catalog of one
    stream that supports only full refresh, against a destination that
    supports only append_dedup, loses that stream. *)
Theorem useInitialSchema_normalize schemaStreams supportedDestinationSyncModes :
  let result := streams (normalize schemaStreams supportedDestinationSyncModes) in
  (λ node, (node_id node, node_stream node)) <$> result
  = (λ p, (Some (pretty p.1), node_stream p.2))
      <$> List.filter (λ p, resolvable supportedDestinationSyncModes p.2)
            (positioned 0 schemaStreams)
  ∧ node_stream <$> result
    = node_stream <$> List.filter (resolvable supportedDestinationSyncModes) schemaStreams
  ∧ length result
    = length (List.filter (resolvable supportedDestinationSyncModes) schemaStreams)
  ∧ (∀ node, node ∈ result →
       ∃ position apiNode,
         schemaStreams !! position = Some apiNode
         ∧ resolvable supportedDestinationSyncModes apiNode = true
         ∧ node_id node = Some (pretty position)
         ∧ node_stream node = node_stream apiNode)
  ∧ (∀ apiNode,
       stream_supportedSyncModes (node_stream apiNode) = [SyncMode.FullRefresh] →
       length (streams (normalize [apiNode] (Some [DestinationSyncMode.append_dedup])))
       = length [apiNode] - 1).
Proof.
  intros result.
  assert ((λ node, (node_id node, node_stream node)) <$> result
          = (λ p, (Some (pretty p.1), node_stream p.2))
              <$> List.filter (λ p, resolvable supportedDestinationSyncModes p.2)
                    (positioned 0 schemaStreams)) as Hshape.
  { apply (normalize_from supportedDestinationSyncModes schemaStreams 0). }
  assert (node_stream <$> result
          = node_stream
              <$> List.filter (resolvable supportedDestinationSyncModes) schemaStreams)
    as Hstreams.
  { apply (f_equal (fmap snd)) in Hshape.
    rewrite <- !list_fmap_compose in Hshape.
    rewrite <- filter_positioned with (first := 0).
    by rewrite <- list_fmap_compose. }
  split_and!; [done | done | | |].
  - apply (f_equal length) in Hstreams. by rewrite !length_fmap in Hstreams.
  - intros node Hnode.
    assert ((node_id node, node_stream node)
            ∈ (λ node, (node_id node, node_stream node)) <$> result) as Hin.
    { apply (list_elem_of_fmap_2 (λ node, (node_id node, node_stream node))), Hnode. }
    rewrite Hshape in Hin.
    apply list_elem_of_fmap in Hin as ([position apiNode] & [= Hid Hstream] & Hin).
    apply list_elem_of_In, filter_In in Hin as [Hin Hres].
    apply list_elem_of_In, elem_of_lookup_imap in Hin as (i & y & [= -> ->] & Hlook).
    exists i, y. by split_and!.
  - intros apiNode Hsupported. simpl.
    rewrite initialSchemaNode_dropped; [done|].
    unfold resolvable. by rewrite Hsupported.
Qed.

End SchemaNormalizer.

Lemma useInitialSchema_normalize_witness :
  (λ node, (node_id node, node_stream node))
    <$> streams (useInitialSchema keepNode repairCursorField mixedCatalog
                   (Some [DestinationSyncMode.append_dedup]))
  = [ (Some "0", node_stream bothModes); (Some "2", node_stream incrementalOnly) ].
Proof.
  destruct (useInitialSchema_normalize keepNode repairCursorField
              (λ node, conj eq_refl eq_refl) repairCursorField_keeps
              mixedCatalog (Some [DestinationSyncMode.append_dedup])) as [Hshape _].
  etrans; [exact Hshape | vm_compute; reflexivity].
Defined.

(** ** The validation ruleset *)

(** The configuration test, rule by rule: nothing for an unselected stream,
    the primary-key violation when that rule fires, else the cursor-field
    violation when that rule fires. *)
Lemma configValidator_rules node :
  configValidator node =
  if negb (truthy (cfg_selected (node_config node))) then None
  else if primaryKeyRuleFires node then Some (missingPrimaryKey node)
  else if cursorFieldRuleFires node then Some (missingCursorField node)
  else None.
Proof. reflexivity. Qed.

Lemma primaryKey_violations index node :
  List.filter isMissingPrimaryKey (streamViolations index node) =
  if truthy (cfg_selected (node_config node)) && primaryKeyRuleFires node
  then [missingPrimaryKey node] else [].
Proof.
  unfold streamViolations. rewrite configValidator_rules.
  destruct (cfg_cursorField (node_config node)),
    (truthy (cfg_selected (node_config node))), (primaryKeyRuleFires node),
    (cursorFieldRuleFires node); reflexivity.
Qed.

Lemma cursorField_violations index node :
  List.filter isMissingCursorField (streamViolations index node) =
  if truthy (cfg_selected (node_config node)) && negb (primaryKeyRuleFires node)
     && cursorFieldRuleFires node
  then [missingCursorField node] else [].
Proof.
  unfold streamViolations. rewrite configValidator_rules.
  destruct (cfg_cursorField (node_config node)),
    (truthy (cfg_selected (node_config node))), (primaryKeyRuleFires node),
    (cursorFieldRuleFires node); reflexivity.
Qed.

Lemma length_is_zero_spec {A} (x : option (list A)) :
  length_is_zero x = true ↔ x = Some [].
Proof.
  destruct x as [[|a l]|]; simpl; split; try done.
Qed.

(** A violation of a stream is a violation of the catalog. *)
Lemma syncCatalogViolations_stream syncCatalog index node violation :
  streams syncCatalog !! index = Some node →
  violation ∈ streamViolations index node →
  violation ∈ syncCatalogViolations syncCatalog.
Proof.
  intros Hnode Hin. unfold syncCatalogViolations.
  apply list_elem_of_join. exists (streamViolations index node). split; [done|].
  by apply elem_of_lookup_imap_2.
Qed.

(** C6. For every stream of the validated catalog: selected, with destination
    sync mode append_dedup and the empty list as primary key, it gets exactly
    one missing-primary-key violation, at the path
    [schema.streams[<id>].config.primaryKey] of its id, and the catalog's
    violations contain it; with a non-empty primary key, or unselected, it gets
    no missing-primary-key violation. *)
Theorem primaryKey_required syncCatalog index node :
  streams syncCatalog !! index = Some node →
  let violations := List.filter isMissingPrimaryKey (streamViolations index node) in
  (truthy (cfg_selected (node_config node)) = true →
   cfg_destinationSyncMode (node_config node) = DestinationSyncMode.append_dedup →
   cfg_primaryKey (node_config node) = Some [] →
   violations
   = [createError "connectionForm.primaryKey.required"
        ("schema.streams[" +:+ idText (node_id node) +:+ "].config.primaryKey")]
   ∧ configValidator node = Some (missingPrimaryKey node)
   ∧ missingPrimaryKey node ∈ syncCatalogViolations syncCatalog)
  ∧ ((∃ key keys, cfg_primaryKey (node_config node) = Some (key :: keys))
     ∨ truthy (cfg_selected (node_config node)) = false →
     violations = []).
Proof.
  intros Hnode violations. subst violations. rewrite primaryKey_violations. split.
  - intros Hselected Hmode Hkey.
    assert (primaryKeyRuleFires node = true) as Hfires.
    { unfold primaryKeyRuleFires. by rewrite Hmode, Hkey. }
    rewrite Hselected, Hfires. split_and!; [done| |].
    + by rewrite configValidator_rules, Hselected, Hfires.
    + apply (syncCatalogViolations_stream _ index node); [done|].
      unfold streamViolations. rewrite configValidator_rules, Hselected, Hfires.
      apply elem_of_app. right. apply list_elem_of_here.
  - intros [(key & keys & Hkey) | Hunselected].
    + unfold primaryKeyRuleFires. rewrite Hkey. simpl.
      by rewrite andb_false_r, andb_false_r.
    + by rewrite Hunselected.
Qed.

Lemma primaryKey_required_witness :
  List.filter isMissingPrimaryKey (streamViolations 0 dedupNoKey)
  = [createError "connectionForm.primaryKey.required"
       "schema.streams[3].config.primaryKey"]
  ∧ List.filter isMissingPrimaryKey (streamViolations 0 dedupWithKey) = [].
Proof.
  split.
  - apply (primaryKey_required {| streams := [dedupNoKey] |} 0 dedupNoKey); reflexivity.
  - apply (primaryKey_required {| streams := [dedupWithKey] |} 0 dedupWithKey);
      [reflexivity|].
    left. by exists ["id"], [].
Defined.

(** C7, as the code has it. For every stream of the validated catalog:
    selected, incremental, with no cursor defined by the source and the empty
    list as cursor field, it gets exactly one missing-cursor-field violation
    of its id, provided the primary-key rule does not fire for it; when that
    rule fires too, the configuration test reports the missing primary key
    and nothing about the cursor field. The same stream unselected gets no
    violation at all. *)
Theorem cursorField_required syncCatalog index node :
  streams syncCatalog !! index = Some node →
  cfg_syncMode (node_config node) = SyncMode.Incremental →
  truthy (stream_sourceDefinedCursor (node_stream node)) = false →
  cfg_cursorField (node_config node) = Some [] →
  (truthy (cfg_selected (node_config node)) = true →
   primaryKeyRuleFires node = false →
   List.filter isMissingCursorField (streamViolations index node)
   = [createError "connectionForm.cursorField.required"
        ("schema.streams[" +:+ idText (node_id node) +:+ "].config.cursorField")]
   ∧ streamViolations index node = [missingCursorField node]
   ∧ missingCursorField node ∈ syncCatalogViolations syncCatalog)
  ∧ (truthy (cfg_selected (node_config node)) = true →
     primaryKeyRuleFires node = true →
     List.filter isMissingCursorField (streamViolations index node) = []
     ∧ streamViolations index node = [missingPrimaryKey node])
  ∧ (truthy (cfg_selected (node_config node)) = false →
     streamViolations index node = []).
Proof.
  intros Hnode Hmode Hsource Hcursor.
  assert (cursorFieldRuleFires node = true) as Hfires.
  { unfold cursorFieldRuleFires. by rewrite Hmode, Hsource, Hcursor. }
  rewrite cursorField_violations. unfold streamViolations.
  rewrite configValidator_rules, Hfires, Hcursor. split_and!.
  - intros Hselected Hkey. rewrite Hselected, Hkey. split_and!; [done..|].
    apply (syncCatalogViolations_stream _ index node); [done|].
    unfold streamViolations.
    rewrite configValidator_rules, Hselected, Hkey, Hfires, Hcursor.
    apply list_elem_of_here.
  - intros Hselected Hkey. by rewrite Hselected, Hkey.
  - intros Hunselected. by rewrite Hunselected.
Qed.

Lemma cursorField_required_witness :
  streamViolations 0 incrementalNoCursor
  = [createError "connectionForm.cursorField.required"
       "schema.streams[1].config.cursorField"]
  ∧ streamViolations 0 incrementalNoCursorUnselected = [].
Proof.
  split.
  - apply (cursorField_required {| streams := [incrementalNoCursor] |} 0
             incrementalNoCursor); reflexivity.
  - apply (cursorField_required {| streams := [incrementalNoCursorUnselected] |} 0
             incrementalNoCursorUnselected); reflexivity.
Defined.

(** C7, as the claim has it, fails: a selected incremental stream with no
    source-defined cursor and an empty cursor field, whose destination sync
    mode is append_dedup and whose primary key is empty as well, gets no
    missing-cursor-field violation. *)
Lemma cursorField_required_counterexample :
  truthy (cfg_selected (node_config dedupNoKeyNoCursor)) = true
  ∧ cfg_syncMode (node_config dedupNoKeyNoCursor) = SyncMode.Incremental
  ∧ stream_sourceDefinedCursor (node_stream dedupNoKeyNoCursor) = Some false
  ∧ cfg_cursorField (node_config dedupNoKeyNoCursor) = Some []
  ∧ List.filter isMissingCursorField
      (syncCatalogViolations {| streams := [dedupNoKeyNoCursor] |}) = []
  ∧ syncCatalogViolations {| streams := [dedupNoKeyNoCursor] |}
    = [createError "connectionForm.primaryKey.required"
         "schema.streams[2].config.primaryKey"].
Proof. split_and!; reflexivity. Qed.

(** Each rule asks for its field only when the field is a defined array of
    length zero. *)
Lemma rules_fire_on_empty_arrays node :
  (primaryKeyRuleFires node = true → cfg_primaryKey (node_config node) = Some [])
  ∧ (cursorFieldRuleFires node = true → cfg_cursorField (node_config node) = Some []).
Proof.
  unfold primaryKeyRuleFires, cursorFieldRuleFires. split.
  - intros [_ H]%andb_true_iff. by apply length_is_zero_spec.
  - intros [_ [_ H]%andb_true_iff]%andb_true_iff. by apply length_is_zero_spec.
Qed.

(** C10, as the code has it. A selected stream with destination sync mode
    append_dedup and no primary-key field gets no missing-primary-key
    violation; it gets no violation at all when, besides, its cursor field is
    defined and the cursor rule does not fire, and the missing-cursor-field
    violation when that rule fires. A missing-primary-key violation only
    arises from a primary key that is a defined array of length zero, a
    missing-cursor-field violation only from such a cursor field. *)
Theorem undefined_primaryKey_passes index node :
  truthy (cfg_selected (node_config node)) = true →
  cfg_destinationSyncMode (node_config node) = DestinationSyncMode.append_dedup →
  cfg_primaryKey (node_config node) = None →
  List.filter isMissingPrimaryKey (streamViolations index node) = []
  ∧ (is_present (cfg_cursorField (node_config node)) = true →
     cursorFieldRuleFires node = false →
     streamViolations index node = [])
  ∧ (cursorFieldRuleFires node = true →
     streamViolations index node = [missingCursorField node])
  ∧ (∀ other position,
       List.filter isMissingPrimaryKey (streamViolations position other) ≠ [] →
       cfg_primaryKey (node_config other) = Some [])
  ∧ (∀ other position,
       List.filter isMissingCursorField (streamViolations position other) ≠ [] →
       cfg_cursorField (node_config other) = Some []).
Proof.
  intros Hselected Hmode Hkey.
  assert (primaryKeyRuleFires node = false) as Hrule.
  { unfold primaryKeyRuleFires. rewrite Hkey. apply andb_false_r. }
  split_and!.
  - by rewrite primaryKey_violations, Hrule, andb_false_r.
  - intros Hdefined Hcursor. unfold streamViolations.
    by rewrite configValidator_rules, Hselected, Hrule, Hdefined, Hcursor.
  - intros Hcursor. unfold streamViolations.
    rewrite configValidator_rules, Hselected, Hrule, Hcursor.
    destruct (rules_fire_on_empty_arrays node) as [_ Hempty].
    by rewrite (Hempty Hcursor).
  - intros other position. rewrite primaryKey_violations.
    destruct (primaryKeyRuleFires other) eqn:Hfires.
    + intros _. by apply rules_fire_on_empty_arrays.
    + by rewrite andb_false_r.
  - intros other position. rewrite cursorField_violations.
    destruct (cursorFieldRuleFires other) eqn:Hfires.
    + intros _. by apply rules_fire_on_empty_arrays.
    + by rewrite andb_false_r.
Qed.

Lemma undefined_primaryKey_passes_witness :
  List.filter isMissingPrimaryKey (streamViolations 0 dedupKeyUndefined) = []
  ∧ streamViolations 0 dedupKeyUndefined = [].
Proof.
  destruct (undefined_primaryKey_passes 0 dedupKeyUndefined)
    as (Hkey & Hnone & _); [reflexivity..|].
  split; [exact Hkey|]. apply Hnone; reflexivity.
Defined.

(** C10, as the claim has it, fails: a selected append_dedup stream without a
    primary-key field does get a violation when it is incremental with an
    empty cursor field and no source-defined cursor. *)
Lemma undefined_primaryKey_passes_counterexample :
  truthy (cfg_selected (node_config dedupKeyUndefinedNoCursor)) = true
  ∧ cfg_destinationSyncMode (node_config dedupKeyUndefinedNoCursor)
    = DestinationSyncMode.append_dedup
  ∧ cfg_primaryKey (node_config dedupKeyUndefinedNoCursor) = None
  ∧ syncCatalogViolations {| streams := [dedupKeyUndefinedNoCursor] |}
    = [createError "connectionForm.cursorField.required"
         "schema.streams[4].config.cursorField"]
  ∧ syncCatalogViolations {| streams := [dedupKeyUndefinedNoCursor] |} ≠ [].
Proof. split_and!; done. Qed.

(** ** The schedule rule *)

(** C8, as the code has it. The schedule rule accepts exactly [null], the
    value of the manual choice, and a schedule object with both its units and
    its non-empty time unit; it refuses [undefined] and an object that lacks
    either field. *)
Theorem scheduleSchema_accepts schedule :
  (scheduleSchema schedule = true
   ↔ schedule = null
     ∨ ∃ magnitude unit,
         schedule = present {| units := Some magnitude; timeUnit := Some unit |}
         ∧ unit ≠ "")
  ∧ scheduleSchema undefined = false
  ∧ (∀ unit, scheduleSchema (present {| units := None; timeUnit := unit |}) = false)
  ∧ (∀ magnitude, scheduleSchema (present {| units := magnitude; timeUnit := None |}) = false).
Proof.
  split_and!; [| done | done | by intros []].
  destruct schedule as [| |[[magnitude|] [unit|]]]; simpl; split;
    try done; try (intros [? | (? & ? & ? & ?)]; done); try (by left).
  - case_bool_decide as Hunit; [done|]. intros _. right. by exists magnitude, unit.
  - intros [? | (m & u & [= -> ->] & Hne)]; [done|]. by rewrite bool_decide_eq_false_2.
Qed.

(** C8, as the claim has it, fails: a schedule that is [null] is accepted. *)
Lemma scheduleSchema_null_counterexample :
  scheduleSchema null = true ∧ scheduleSchema null ≠ false.
Proof. by split. Qed.

(** ** Determinism of the initial-state builder *)

Lemma useMemo_agrees {D V : Type} (same : D → D → bool) (compute : D → V)
    (factory : unit → V) (deps : D) (cell : option (D * V)) :
  (∀ kept deps, same kept deps = true → kept = deps) →
  cell_agrees compute cell →
  factory () = compute deps →
  (Hooks.useMemo same factory deps cell).1 = compute deps
  ∧ cell_agrees compute (Hooks.useMemo same factory deps cell).2.
Proof.
  intros Hsame Hcell Hfactory. unfold Hooks.useMemo.
  destruct cell as [[kept value]|]; [destruct (same kept deps) eqn:Hhit|]; simpl.
  - apply Hsame in Hhit as <-. split; [by apply Hcell | done].
  - split; [done|]. by intros ?? [= <- <-].
  - split; [done|]. by intros ?? [= <- <-].
Qed.

Section Determinism.
Variable verifySupportedSyncModes : SyncSchemaStream → SyncSchemaStream.
Variable verifyConfigCursorField : SyncSchemaStream → SyncSchemaStream.
Variable SOURCE_NAMESPACE_TAG : string.
Variable sameSchemaDeps : Hooks.SchemaDeps → Hooks.SchemaDeps → bool.
Variable sameValuesDeps : Hooks.ValuesDeps → Hooks.ValuesDeps → bool.
Hypothesis sameSchemaDeps_sound :
  ∀ kept deps, sameSchemaDeps kept deps = true → kept = deps.
Hypothesis sameValuesDeps_sound :
  ∀ kept deps, sameValuesDeps kept deps = true → kept = deps.

Local Abbreviation schemaOf :=
  (λ deps : Hooks.SchemaDeps,
     useInitialSchema verifySupportedSyncModes verifyConfigCursorField deps.1 deps.2).
Local Abbreviation valuesOf :=
  (λ deps : Hooks.ValuesDeps,
     initialValues SOURCE_NAMESPACE_TAG deps.1.1.1 deps.1.1.2 deps.1.2 deps.2).
Local Abbreviation invoke :=
  (Hooks.buildInitialState verifySupportedSyncModes verifyConfigCursorField
     SOURCE_NAMESPACE_TAG sameSchemaDeps sameValuesDeps).
Local Abbreviation after :=
  (Hooks.after verifySupportedSyncModes verifyConfigCursorField
     SOURCE_NAMESPACE_TAG sameSchemaDeps sameValuesDeps).
Local Abbreviation builder :=
  (buildInitialState verifySupportedSyncModes verifyConfigCursorField
     SOURCE_NAMESPACE_TAG).

Local Abbreviation state_agrees := (cells_agree schemaOf valuesOf).

Lemma mount_agrees : state_agrees Hooks.mount.
Proof. split; intros ?? [=]. Qed.

Lemma buildInitialState_agrees props state :
  state_agrees state →
  (invoke props state).1
  = builder (Hooks.connection props) (Hooks.destDefinition props)
      (Hooks.isEditMode props) (Hooks.workspaceId props)
  ∧ state_agrees (invoke props state).2.
Proof.
  intros [Hschema Hvalues].
  unfold Hooks.buildInitialState, Hooks.useInitialValues, Hooks.useInitialSchema.
  destruct (useMemo_agrees sameSchemaDeps schemaOf
              (λ _, useInitialSchema verifySupportedSyncModes verifyConfigCursorField
                      (streams (conn_syncCatalog (Hooks.connection props)))
                      (dest_supportedDestinationSyncModes (Hooks.destDefinition props)))
              (streams (conn_syncCatalog (Hooks.connection props)),
               dest_supportedDestinationSyncModes (Hooks.destDefinition props))
              (Hooks.schemaCell state) sameSchemaDeps_sound Hschema eq_refl)
    as [Hout1 Hcell1].
  destruct (Hooks.useMemo sameSchemaDeps _ _ (Hooks.schemaCell state))
    as [initialSchema schemaCell'].
  simpl in Hout1, Hcell1. subst initialSchema.
  match goal with
  | |- context [Hooks.useMemo sameValuesDeps ?f ?d ?c] =>
      destruct (useMemo_agrees sameValuesDeps valuesOf f d c
                  sameValuesDeps_sound Hvalues eq_refl) as [Hout2 Hcell2];
      destruct (Hooks.useMemo sameValuesDeps f d c) as [values valuesCell']
  end.
  simpl in Hout2, Hcell2. subst values. simpl. split; [done|]. by split.
Qed.

Lemma after_agrees history state :
  state_agrees state → state_agrees (after history state).
Proof.
  revert state. induction history as [|props history IH]; intros state Hstate; [done|].
  simpl. apply IH. by apply buildInitialState_agrees.
Qed.

(** C9. The initial-state builder is deterministic: whatever invocations came
    before, in whatever order, an invocation returns the value that the
    builder, as a function, gives for its arguments (the connection with its
    raw catalog and persisted operations, the destination's capabilities, the
    edit-mode flag, the workspace); so two invocations with the same
    arguments return the same value. The dependency comparison of the memo
    cells may be any test that only answers yes on equal dependencies, as
    reference equality does on values that are not mutated. *)
Theorem buildInitialState_deterministic (earlier earlier' : list Hooks.Props)
    (props : Hooks.Props) :
  (invoke props (after earlier Hooks.mount)).1
  = (invoke props (after earlier' Hooks.mount)).1
  ∧ (invoke props (after earlier Hooks.mount)).1
    = builder (Hooks.connection props) (Hooks.destDefinition props)
        (Hooks.isEditMode props) (Hooks.workspaceId props)
  ∧ (invoke props (invoke props (after earlier Hooks.mount)).2).1
    = (invoke props (after earlier Hooks.mount)).1.
Proof.
  pose proof (after_agrees earlier _ mount_agrees) as Hearlier.
  pose proof (after_agrees earlier' _ mount_agrees) as Hearlier'.
  destruct (buildInitialState_agrees props _ Hearlier) as [Hout Hnext].
  destruct (buildInitialState_agrees props _ Hearlier') as [Hout' _].
  destruct (buildInitialState_agrees props _ Hnext) as [Hagain _].
  split_and!; congruence.
Qed.

End Determinism.

Lemma structurally_sound {D : Type} `{EqDecision D} (kept deps : D) :
  Hooks.structurally kept deps = true → kept = deps.
Proof. apply bool_decide_eq_true_1. Qed.

Lemma buildInitialState_deterministic_witness :
  (Hooks.buildInitialState keepNode repairCursorField "${SOURCE_NAMESPACE}"
     Hooks.structurally Hooks.structurally editExisting
     (Hooks.after keepNode repairCursorField "${SOURCE_NAMESPACE}"
        Hooks.structurally Hooks.structurally [createFresh; editExisting] Hooks.mount)).1
  = (Hooks.buildInitialState keepNode repairCursorField "${SOURCE_NAMESPACE}"
       Hooks.structurally Hooks.structurally editExisting
       (Hooks.after keepNode repairCursorField "${SOURCE_NAMESPACE}"
          Hooks.structurally Hooks.structurally [] Hooks.mount)).1.
Proof.
  apply (buildInitialState_deterministic keepNode repairCursorField
           "${SOURCE_NAMESPACE}" Hooks.structurally Hooks.structurally
           structurally_sound structurally_sound
           [createFresh; editExisting] [] editExisting).
Defined.

(** * Further properties of the form configuration *)

(** ** Seeding the transformations *)

Lemma filter_sublist {A} (p : A → bool) (l : list A) : sublist (List.filter p l) l.
Proof.
  induction l as [|a l IH]; simpl; [constructor|].
  destruct (p a); by constructor.
Qed.

Lemma elem_of_List_filter {A} (p : A → bool) (l : list A) (x : A) :
  x ∈ List.filter p l ↔ x ∈ l ∧ p x = true.
Proof. rewrite !list_elem_of_In. apply filter_In. Qed.

Lemma isDbt_not_normalization op :
  isDbtTransformation op = true → isNormalizationTransformation op = false.
Proof.
  unfold isDbtTransformation, isNormalizationTransformation.
  intros Hdbt%bool_decide_eq_true. rewrite Hdbt. reflexivity.
Qed.

Lemma isNormalization_not_dbt op :
  isNormalizationTransformation op = true → isDbtTransformation op = false.
Proof.
  unfold isDbtTransformation, isNormalizationTransformation.
  intros Hnorm%bool_decide_eq_true. rewrite Hnorm. reflexivity.
Qed.

Lemma filter_all {A} (p : A → bool) (l : list A) :
  Forall (λ x, p x = true) l → List.filter p l = l.
Proof.
  induction 1 as [|a l Ha _ IH]; simpl; [done|]. by rewrite Ha, IH.
Qed.

(** X1. [getInitialTransformations] seeds the form with exactly the persisted
    dbt operations, each as often as it is persisted: an operation is in the
    result if and only if it is a persisted operation with the dbt tag; the
    result keeps the order of the persisted list; it contains no normalization
    operation; a list of dbt operations is returned as it is, repetitions
    included; taking an operation that is not a dbt operation out of the
    persisted list does not change the result; the result for a concatenation
    is the concatenation of the results; and without a persisted list the
    result is empty. *)
Theorem getInitialTransformations_selects operations :
  (∀ op, op ∈ getInitialTransformations (Some operations)
         ↔ op ∈ operations ∧ isDbtTransformation op = true)
  ∧ sublist (getInitialTransformations (Some operations)) operations
  ∧ (∀ op, op ∈ getInitialTransformations (Some operations) →
           isNormalizationTransformation op = false)
  ∧ (length (getInitialTransformations (Some operations)) ≤ length operations)%nat
  ∧ (Forall (λ op, isDbtTransformation op = true) operations →
     getInitialTransformations (Some operations) = operations)
  ∧ (∀ before op behind,
       operations = before ++ op :: behind → isDbtTransformation op = false →
       getInitialTransformations (Some operations)
       = getInitialTransformations (Some (before ++ behind)))
  ∧ (∀ before behind,
       operations = before ++ behind →
       getInitialTransformations (Some operations)
       = getInitialTransformations (Some before)
         ++ getInitialTransformations (Some behind))
  ∧ getInitialTransformations None = [].
Proof.
  unfold getInitialTransformations. simpl. split_and!; [| | | | | | |done].
  - intros op. apply elem_of_List_filter.
  - apply filter_sublist.
  - intros op [_ Hdbt]%elem_of_List_filter. by apply isDbt_not_normalization.
  - apply sublist_length, filter_sublist.
  - apply filter_all.
  - intros before op behind -> Hop. rewrite !List.filter_app. simpl. by rewrite Hop.
  - intros before behind ->. apply List.filter_app.
Qed.

(** ** More on the operation merger *)

(** X2. [mapFormPropsToOperation] takes nothing but a normalization operation
    from the persisted operations: a persisted operation that is not a
    normalization operation and that the form's transformation list does not
    contain is not in the result. *)
Theorem mapFormPropsToOperation_forgets values initialOperations workspaceId op :
  isNormalizationTransformation op = false →
  op ∉ default [] (v_transformations values) →
  op ∉ mapFormPropsToOperation values initialOperations workspaceId.
Proof.
  intros Hop Hform. rewrite mapFormPropsToOperation_shape.
  intros [Hin|Hin]%elem_of_app; [|done].
  destruct (v_normalization values) as [choice|]; [|by apply elem_of_nil in Hin].
  case_bool_decide; [|by apply elem_of_nil in Hin].
  apply list_elem_of_singleton in Hin. subst op.
  by rewrite emitted_is_normalization in Hop.
Qed.

Lemma mapFormPropsToOperation_forgets_witness :
  dbtOperation "op-9" "removed"
  ∉ mapFormPropsToOperation basicWithTransformations
      (Some (dbtOperation "op-9" "removed" :: persistedOperations)) "workspace-1".
Proof.
  apply (mapFormPropsToOperation_forgets basicWithTransformations
           (Some (dbtOperation "op-9" "removed" :: persistedOperations)) "workspace-1"
           (dbtOperation "op-9" "removed")).
  - reflexivity.
  - simpl. unfold twoTransformations.
    rewrite !not_elem_of_cons. split_and!; [discriminate..|apply not_elem_of_nil].
Defined.

(** X3. Saving and loading the transformations is a round trip: when the
    form's transformations are dbt operations, [getInitialTransformations]
    applied to the result of [mapFormPropsToOperation] gives the form's
    transformation list back, whatever normalization was chosen and whatever
    was persisted before. *)
Theorem transformations_round_trip values initialOperations workspaceId :
  Forall (λ op, isDbtTransformation op = true) (default [] (v_transformations values)) →
  getInitialTransformations
    (Some (mapFormPropsToOperation values initialOperations workspaceId))
  = default [] (v_transformations values).
Proof.
  intros Hdbt. rewrite mapFormPropsToOperation_shape.
  unfold getInitialTransformations. simpl. rewrite List.filter_app, (filter_all _ _ Hdbt).
  destruct (v_normalization values) as [choice|]; [|done].
  case_bool_decide; [|done]. simpl.
  by rewrite (isNormalization_not_dbt _ (emitted_is_normalization _ _ _)).
Qed.

Lemma transformations_round_trip_witness :
  getInitialTransformations
    (Some (mapFormPropsToOperation
             {| v_transformations :=
                  Some (twoTransformations ++ [useDefaultTransformation "workspace-1"]);
                v_normalization := Some NormalizationType.BASIC |}
             (Some persistedOperations) "workspace-1"))
  = twoTransformations ++ [useDefaultTransformation "workspace-1"].
Proof.
  apply (transformations_round_trip
           {| v_transformations :=
                Some (twoTransformations ++ [useDefaultTransformation "workspace-1"]);
              v_normalization := Some NormalizationType.BASIC |}
           (Some persistedOperations) "workspace-1").
  simpl. unfold twoTransformations. repeat constructor.
Defined.

(** X4. The workspace id only enters a newly made normalization operation:
    when no normalization operation is emitted (no choice, or the raw one), or
    a persisted normalization operation is there to be reused, the result of
    [mapFormPropsToOperation] does not depend on the workspace id. *)
Theorem mapFormPropsToOperation_workspaceId values initialOperations workspaceId
    workspaceId' :
  v_normalization values = None
  ∨ v_normalization values = Some NormalizationType.RAW
  ∨ (∃ op, op ∈ default [] initialOperations
           ∧ isNormalizationTransformation op = true) →
  mapFormPropsToOperation values initialOperations workspaceId
  = mapFormPropsToOperation values initialOperations workspaceId'.
Proof.
  intros Hcase. rewrite !mapFormPropsToOperation_shape.
  destruct Hcase as [-> | [-> | (op & Hin & Hop)]]; [done..|].
  destruct (find isNormalizationTransformation (default [] initialOperations))
    as [found|] eqn:Hfind; [done|].
  rewrite find_is_None in Hfind. rewrite (Hfind op Hin) in Hop. done.
Qed.

Lemma mapFormPropsToOperation_workspaceId_witness :
  mapFormPropsToOperation basicWithTransformations (Some persistedOperations)
    "workspace-1"
  = mapFormPropsToOperation basicWithTransformations (Some persistedOperations)
      "workspace-2".
Proof.
  apply (mapFormPropsToOperation_workspaceId basicWithTransformations
           (Some persistedOperations) "workspace-1" "workspace-2").
  right. right. exists persistedNormalization. split; [|reflexivity].
  apply list_elem_of_here.
Defined.

(** ** Loading and saving the operations *)

Lemma getInitialNormalization_first operations first isEditMode :
  find isNormalizationTransformation operations = Some first →
  getInitialNormalization (Some operations) isEditMode
  = default NormalizationType.BASIC
      (oc_normalization (op_operatorConfiguration first) ≫= norm_option).
Proof.
  intros Hfind. rewrite getInitialNormalization_isEditMode.
  unfold getInitialNormalization. simpl. rewrite Hfind. simpl.
  by destruct (_ ≫= _).
Qed.

Lemma getInitialTransformations_behind_normalization normalization transformations :
  isNormalizationTransformation normalization = true →
  Forall (λ op, isDbtTransformation op = true) transformations →
  getInitialTransformations (Some (normalization :: transformations)) = transformations.
Proof.
  intros Hnorm Hdbt. unfold getInitialTransformations. simpl.
  by rewrite (isNormalization_not_dbt _ Hnorm), (filter_all _ _ Hdbt).
Qed.

Section LoadAndSave.
Variable verifySupportedSyncModes : SyncSchemaStream → SyncSchemaStream.
Variable verifyConfigCursorField : SyncSchemaStream → SyncSchemaStream.
Variable SOURCE_NAMESPACE_TAG : string.

Local Abbreviation builder :=
  (buildInitialState verifySupportedSyncModes verifyConfigCursorField
     SOURCE_NAMESPACE_TAG).

(** X5. Loading and saving without an edit returns the persisted operations:
    for a destination that supports dbt and normalization, and persisted
    operations made of a normalization operation whose option is not the raw
    one, followed by dbt operations, the operation list of the initial state
    is the persisted list itself, ids included. *)
Theorem operations_round_trip connection destDefinition isEditMode workspaceId
    normalization transformations :
  conn_operations connection = Some (normalization :: transformations) →
  isNormalizationTransformation normalization = true →
  oc_normalization (op_operatorConfiguration normalization) ≫= norm_option
  ≠ Some NormalizationType.RAW →
  Forall (λ op, isDbtTransformation op = true) transformations →
  truthy (dest_supportsDbt destDefinition) = true →
  truthy (dest_supportsNormalization destDefinition) = true →
  (builder connection destDefinition isEditMode workspaceId).2
  = normalization :: transformations.
Proof.
  intros Hops Hnorm Hraw Hdbt HsupportsDbt HsupportsNormalization.
  unfold buildInitialState, useInitialValues, initialValues, operationValues. simpl.
  rewrite mapFormPropsToOperation_shape. simpl.
  rewrite HsupportsDbt, HsupportsNormalization, Hops. simpl.
  rewrite (getInitialTransformations_behind_normalization _ _ Hnorm Hdbt).
  rewrite (getInitialNormalization_first _ normalization) by (simpl; by rewrite Hnorm).
  rewrite Hnorm. simpl. rewrite bool_decide_eq_true_2; [done|].
  by destruct (_ ≫= _) as [[]|].
Qed.

(** X6. A persisted normalization operation whose option is the raw one does
    not survive loading and saving: for the same kind of destination and
    persisted list, the operation list of the initial state is the list of
    the dbt operations alone. *)
Theorem raw_normalization_dropped connection destDefinition isEditMode workspaceId
    normalization transformations :
  conn_operations connection = Some (normalization :: transformations) →
  isNormalizationTransformation normalization = true →
  oc_normalization (op_operatorConfiguration normalization) ≫= norm_option
  = Some NormalizationType.RAW →
  Forall (λ op, isDbtTransformation op = true) transformations →
  truthy (dest_supportsDbt destDefinition) = true →
  truthy (dest_supportsNormalization destDefinition) = true →
  (builder connection destDefinition isEditMode workspaceId).2 = transformations.
Proof.
  intros Hops Hnorm Hraw Hdbt HsupportsDbt HsupportsNormalization.
  unfold buildInitialState, useInitialValues, initialValues, operationValues. simpl.
  rewrite mapFormPropsToOperation_shape. simpl.
  rewrite HsupportsDbt, HsupportsNormalization, Hops. simpl.
  rewrite (getInitialTransformations_behind_normalization _ _ Hnorm Hdbt).
  rewrite (getInitialNormalization_first _ normalization) by (simpl; by rewrite Hnorm).
  by rewrite Hraw.
Qed.

(** X7. For a destination that does not support normalization, the initial
    state carries no normalization operation, whatever was persisted: its
    operation list is the list of the persisted dbt operations when the
    destination supports dbt, and empty when it does not. *)
Theorem unsupported_normalization connection destDefinition isEditMode workspaceId :
  truthy (dest_supportsNormalization destDefinition) = false →
  (builder connection destDefinition isEditMode workspaceId).2
  = (if truthy (dest_supportsDbt destDefinition)
     then getInitialTransformations (conn_operations connection)
     else [])
  ∧ ∀ op, op ∈ (builder connection destDefinition isEditMode workspaceId).2 →
          isNormalizationTransformation op = false.
Proof.
  intros Hunsupported.
  assert ((builder connection destDefinition isEditMode workspaceId).2
          = if truthy (dest_supportsDbt destDefinition)
            then getInitialTransformations (conn_operations connection)
            else []) as Heq.
  { unfold buildInitialState, useInitialValues, initialValues, operationValues. simpl.
    rewrite mapFormPropsToOperation_shape. simpl. rewrite Hunsupported. simpl.
    destruct (truthy (dest_supportsDbt destDefinition)); [|done]. simpl.
    by destruct (conn_operations connection). }
  split; [done|]. rewrite Heq. intros op.
  destruct (truthy (dest_supportsDbt destDefinition)); [|by intros ?%elem_of_nil].
  destruct (conn_operations connection) as [operations|]; [|by intros ?%elem_of_nil].
  unfold getInitialTransformations. simpl.
  intros [_ Hdbt]%elem_of_List_filter. by apply isDbt_not_normalization.
Qed.

(** X8. The initial values and the top-level rules: the namespace definition
    of the initial values always passes its rule; their schedule passes the
    schedule rule unless the connection holds a schedule with an empty time
    unit (an unset schedule gets the 24-hour default, [null] is kept); their
    namespace format passes its rule unless the connection's namespace
    definition is the custom format and the format, or the tag that stands in
    for a missing one, is empty. *)
Theorem initialValues_pass_rules initialSchema connection isEditMode destDefinition :
  let values :=
    initialValues SOURCE_NAMESPACE_TAG initialSchema connection isEditMode
      destDefinition in
  namespaceDefinitionSchema (fv_namespaceDefinition values) = true
  ∧ (scheduleSchema (scheduleValue (fv_schedule values)) = true
     ↔ ∀ schedule, conn_schedule connection = present schedule →
                   sched_timeUnit schedule ≠ "")
  ∧ (conn_schedule connection = undefined →
     fv_schedule values = present {| sched_units := 24; sched_timeUnit := "hours" |})
  ∧ (conn_schedule connection = null → fv_schedule values = null)
  ∧ (namespaceFormatSchema (fv_namespaceDefinition values)
       (Some (fv_namespaceFormat values)) = true
     ↔ conn_namespaceDefinition connection ≠ Some NamespaceDefinitionType.customformat
       ∨ default SOURCE_NAMESPACE_TAG (conn_namespaceFormat connection) ≠ "").
Proof.
  intros values. subst values. unfold initialValues. simpl. split_and!.
  - done.
  - destruct (conn_schedule connection) as [| |[magnitude unit]]; simpl.
    + split; [by intros _ ? [=]|done].
    + split; [by intros _ ? [=]|done].
    + case_bool_decide as Hunit; simpl.
      * split; [done|]. intros H. by destruct (H _ eq_refl).
      * split; [|done]. by intros _ ? [= <-].
  - by intros ->.
  - by intros ->.
  - unfold namespaceFormatSchema.
    destruct (conn_namespaceDefinition connection) as [[]|]; simpl;
      try (split; [by left|done]).
    case_bool_decide as Hformat; simpl.
    + split; [done|]. by intros [?|?].
    + split; [by right|done].
Qed.

End LoadAndSave.

Lemma operations_round_trip_witness :
  (buildInitialState keepNode repairCursorField "${SOURCE_NAMESPACE}" persistedConnection
     dedupDestination (Some true) "workspace-1").2
  = persistedOperations.
Proof.
  apply (operations_round_trip keepNode repairCursorField "${SOURCE_NAMESPACE}"
           persistedConnection dedupDestination (Some true) "workspace-1"
           persistedNormalization twoTransformations).
  - reflexivity.
  - reflexivity.
  - discriminate.
  - unfold twoTransformations. repeat constructor.
  - reflexivity.
  - reflexivity.
Defined.

Lemma raw_normalization_dropped_witness :
  (buildInitialState keepNode repairCursorField "${SOURCE_NAMESPACE}"
     {| conn_syncCatalog := {| streams := [] |};
        conn_schedule := null;
        conn_prefix := None;
        conn_namespaceDefinition := None;
        conn_namespaceFormat := None;
        conn_operations := Some (rawNormalization :: twoTransformations) |}
     dedupDestination (Some true) "workspace-1").2
  = twoTransformations.
Proof.
  apply (raw_normalization_dropped keepNode repairCursorField "${SOURCE_NAMESPACE}"
           _ dedupDestination (Some true) "workspace-1"
           rawNormalization twoTransformations).
  - reflexivity.
  - reflexivity.
  - reflexivity.
  - unfold twoTransformations. repeat constructor.
  - reflexivity.
  - reflexivity.
Defined.

Lemma unsupported_normalization_witness :
  (buildInitialState keepNode repairCursorField "${SOURCE_NAMESPACE}" persistedConnection
     plainDestination None "workspace-1").2
  = [].
Proof.
  apply (unsupported_normalization keepNode repairCursorField "${SOURCE_NAMESPACE}"
           persistedConnection plainDestination None "workspace-1").
  reflexivity.
Defined.

(** ** More on the validation ruleset *)

(** X9. A stream whose primary key and cursor field are both non-empty lists
    gets no violation, whatever its sync modes and whether it is selected or
    not. *)
Theorem filled_stream_passes index node key keys field fields :
  cfg_primaryKey (node_config node) = Some (key :: keys) →
  cfg_cursorField (node_config node) = Some (field :: fields) →
  streamViolations index node = [] ∧ configValidator node = None.
Proof.
  intros Hkey Hcursor.
  assert (configValidator node = None) as Htest.
  { rewrite configValidator_rules. unfold primaryKeyRuleFires, cursorFieldRuleFires.
    rewrite Hkey, Hcursor. simpl. rewrite !andb_false_r.
    by destruct (negb _). }
  split; [|done]. unfold streamViolations. by rewrite Htest, Hcursor.
Qed.

Lemma filled_stream_passes_witness :
  streamViolations 0 keyedWithCursor = [] ∧ configValidator keyedWithCursor = None.
Proof.
  apply (filled_stream_passes 0 keyedWithCursor ["id"] [] "updated_at" []); reflexivity.
Defined.

(** X10. Each rule only concerns the modes that need its field: a stream
    whose destination sync mode is not append_dedup never gets a
    missing-primary-key violation, even with an empty primary key; a stream
    that is not incremental, or whose source defines the cursor, never gets a
    missing-cursor-field violation, even with an empty cursor field; and a
    stream with neither mode passes the configuration test. *)
Theorem rules_follow_modes index node :
  (cfg_destinationSyncMode (node_config node) ≠ DestinationSyncMode.append_dedup →
   List.filter isMissingPrimaryKey (streamViolations index node) = [])
  ∧ (cfg_syncMode (node_config node) ≠ SyncMode.Incremental
     ∨ truthy (stream_sourceDefinedCursor (node_stream node)) = true →
     List.filter isMissingCursorField (streamViolations index node) = [])
  ∧ (cfg_destinationSyncMode (node_config node) ≠ DestinationSyncMode.append_dedup →
     cfg_syncMode (node_config node) ≠ SyncMode.Incremental →
     configValidator node = None).
Proof.
  assert (cfg_destinationSyncMode (node_config node) ≠ DestinationSyncMode.append_dedup →
          primaryKeyRuleFires node = false) as Hkey.
  { intros Hmode. unfold primaryKeyRuleFires. by rewrite bool_decide_eq_false_2. }
  assert (cfg_syncMode (node_config node) ≠ SyncMode.Incremental
          ∨ truthy (stream_sourceDefinedCursor (node_stream node)) = true →
          cursorFieldRuleFires node = false) as Hcursor.
  { unfold cursorFieldRuleFires. intros [Hmode | Hsource].
    - by rewrite bool_decide_eq_false_2.
    - rewrite Hsource. simpl. apply andb_false_r. }
  split_and!.
  - intros Hmode. by rewrite primaryKey_violations, (Hkey Hmode), andb_false_r.
  - intros Hcase. by rewrite cursorField_violations, (Hcursor Hcase), andb_false_r.
  - intros Hmode Hsync. rewrite configValidator_rules, (Hkey Hmode), (Hcursor (or_introl Hsync)).
    by destruct (negb _).
Qed.

Lemma join_imap_nil {A B} (f : nat → A → list B) (l : list A) :
  mjoin (imap f l) = [] ↔ ∀ i x, l !! i = Some x → f i x = [].
Proof.
  revert f. induction l as [|a l IH]; intros f.
  - split; [|done]. by intros _ i x [=].
  - destruct (IH (f ∘ S)) as [Hnone Hall].
    change (mjoin (imap f (a :: l))) with (f 0 a ++ mjoin (imap (f ∘ S) l)). split.
    + intros [Ha Hl]%app_eq_nil. intros [|i] x Hx; simpl in Hx.
      * by injection Hx as <-.
      * by apply (Hnone Hl i x).
    + intros H. rewrite (H 0 a eq_refl). simpl. apply Hall. intros i x Hx.
      by apply (H (S i) x).
Qed.

Lemma primaryKeyRuleFires_false node :
  primaryKeyRuleFires node = false
  ↔ (cfg_destinationSyncMode (node_config node) = DestinationSyncMode.append_dedup →
     cfg_primaryKey (node_config node) ≠ Some []).
Proof.
  unfold primaryKeyRuleFires. rewrite andb_false_iff, bool_decide_eq_false. split.
  - intros [Hmode | Hkey] Hdedup Hempty; [done|].
    apply length_is_zero_spec in Hempty. congruence.
  - intros H.
    destruct (decide (cfg_destinationSyncMode (node_config node)
                      = DestinationSyncMode.append_dedup)) as [Hdedup|Hother].
    + right. apply not_true_is_false. rewrite length_is_zero_spec. by apply H.
    + left. congruence.
Qed.

Lemma cursorFieldRuleFires_false node :
  cursorFieldRuleFires node = false
  ↔ (cfg_syncMode (node_config node) = SyncMode.Incremental →
     truthy (stream_sourceDefinedCursor (node_stream node)) = false →
     cfg_cursorField (node_config node) ≠ Some []).
Proof.
  unfold cursorFieldRuleFires.
  rewrite !andb_false_iff, bool_decide_eq_false, negb_false_iff. split.
  - intros [Hmode | [Hsource | Hcursor]] Hincremental Hnone Hempty;
      [done | congruence |].
    apply length_is_zero_spec in Hempty. congruence.
  - intros H.
    destruct (decide (cfg_syncMode (node_config node) = SyncMode.Incremental))
      as [Hincremental|Hother]; [|left; congruence].
    destruct (truthy (stream_sourceDefinedCursor (node_stream node))) eqn:Hsource;
      [right; by left|].
    right. right. apply not_true_is_false. rewrite length_is_zero_spec. by apply H.
Qed.

Lemma streamViolations_nil index node :
  streamViolations index node = []
  ↔ is_present (cfg_cursorField (node_config node)) = true
    ∧ (truthy (cfg_selected (node_config node)) = true →
       primaryKeyRuleFires node = false ∧ cursorFieldRuleFires node = false).
Proof.
  unfold streamViolations. rewrite configValidator_rules.
  destruct (is_present (cfg_cursorField (node_config node))),
    (truthy (cfg_selected (node_config node))), (primaryKeyRuleFires node),
    (cursorFieldRuleFires node); simpl; split; try done;
    try (intros [_ H]; by destruct (H eq_refl)); by intros [? _].
Qed.

(** X11. The catalog is accepted exactly when its streams have the fields
    their modes ask for: it has no violation if and only if every stream has a
    defined cursor field and every selected stream has a primary key other
    than the empty list when its destination sync mode is append_dedup, and a
    cursor field other than the empty list when it is incremental and the
    source does not define the cursor. *)
Theorem syncCatalogViolations_none syncCatalog :
  syncCatalogViolations syncCatalog = []
  ↔ ∀ node, node ∈ streams syncCatalog →
      is_present (cfg_cursorField (node_config node)) = true
      ∧ (truthy (cfg_selected (node_config node)) = true →
         (cfg_destinationSyncMode (node_config node) = DestinationSyncMode.append_dedup →
          cfg_primaryKey (node_config node) ≠ Some [])
         ∧ (cfg_syncMode (node_config node) = SyncMode.Incremental →
            truthy (stream_sourceDefinedCursor (node_stream node)) = false →
            cfg_cursorField (node_config node) ≠ Some [])).
Proof.
  unfold syncCatalogViolations. rewrite join_imap_nil. split.
  - intros Hall node [index Hnode]%list_elem_of_lookup.
    apply Hall, streamViolations_nil in Hnode as [Hdefined Hrules].
    split; [done|]. intros Hselected. destruct (Hrules Hselected) as [Hkey Hcursor].
    split; [by apply primaryKeyRuleFires_false | by apply cursorFieldRuleFires_false].
  - intros Hall index node Hnode. apply streamViolations_nil.
    destruct (Hall node) as [Hdefined Hrules]; [by eapply list_elem_of_lookup_2|].
    split; [done|]. intros Hselected. destruct (Hrules Hselected) as [Hkey Hcursor].
    split; [by apply primaryKeyRuleFires_false | by apply cursorFieldRuleFires_false].
Qed.

(** ** Violations and stream ids *)

Lemma ascii_list_app (s t : string) :
  Stdlib.Strings.String.list_ascii_of_string (s +:+ t)
  = Stdlib.Strings.String.list_ascii_of_string s
    ++ Stdlib.Strings.String.list_ascii_of_string t.
Proof.
  induction s as [|a s IH]; [done|].
  change (String a s +:+ t) with (String a (s +:+ t)). simpl. by rewrite IH.
Qed.

Lemma string_app_inj_r (s s' t : string) : s +:+ t = s' +:+ t → s = s'.
Proof.
  intros Heq. apply (f_equal Stdlib.Strings.String.list_ascii_of_string) in Heq.
  rewrite !ascii_list_app in Heq. apply app_inv_tail in Heq.
  apply (f_equal Stdlib.Strings.String.string_of_list_ascii) in Heq.
  by rewrite !Stdlib.Strings.String.string_of_list_ascii_of_string in Heq.
Qed.

Lemma missingPrimaryKey_inj node node' :
  missingPrimaryKey node = missingPrimaryKey node' →
  idText (node_id node) = idText (node_id node').
Proof.
  unfold missingPrimaryKey. intros [= Heq].
  exact (string_app_inj_r (idText (node_id node)) (idText (node_id node'))
           "].config.primaryKey" Heq).
Qed.

Lemma missingCursorField_inj node node' :
  missingCursorField node = missingCursorField node' →
  idText (node_id node) = idText (node_id node').
Proof.
  unfold missingCursorField. intros [= Heq].
  exact (string_app_inj_r (idText (node_id node)) (idText (node_id node'))
           "].config.cursorField" Heq).
Qed.

(** X12. A violation of the configuration test leads back to one stream id and
    one field: two streams get the same missing-primary-key violation, or the
    same missing-cursor-field violation, only when their ids read the same,
    and a missing-primary-key violation is never equal to a
    missing-cursor-field violation. *)
Theorem violation_names_stream node node' :
  (missingPrimaryKey node = missingPrimaryKey node'
   ↔ idText (node_id node) = idText (node_id node'))
  ∧ (missingCursorField node = missingCursorField node'
     ↔ idText (node_id node) = idText (node_id node'))
  ∧ missingPrimaryKey node ≠ missingCursorField node'.
Proof.
  split_and!.
  - split; [apply missingPrimaryKey_inj|]. unfold missingPrimaryKey. by intros ->.
  - split; [apply missingCursorField_inj|]. unfold missingCursorField. by intros ->.
  - unfold missingPrimaryKey, missingCursorField. intros [= ?].
Qed.

Lemma positioned_from first schemaStreams position apiNode :
  (position, apiNode) ∈ positioned first schemaStreams → (first ≤ position)%nat.
Proof.
  unfold positioned. intros (i & y & [= -> ->] & _)%elem_of_lookup_imap. lia.
Qed.

Lemma positioned_cons first apiNode rest :
  positioned first (apiNode :: rest) = (first, apiNode) :: positioned (S first) rest.
Proof.
  unfold positioned. rewrite imap_cons, Nat.add_0_r. f_equal.
  apply imap_ext. intros i x _. simpl. f_equal. lia.
Qed.

Lemma positions_NoDup (keep : nat * SyncSchemaStream → bool) schemaStreams first :
  NoDup (fst <$> List.filter keep (positioned first schemaStreams)).
Proof.
  revert first. induction schemaStreams as [|apiNode rest IH]; intros first.
  - constructor.
  - rewrite positioned_cons. simpl. destruct (keep (first, apiNode)); [|apply IH].
    simpl. constructor; [|apply IH].
    intros ([position node] & Hfirst & Hin%elem_of_List_filter)%list_elem_of_fmap.
    simpl in Hfirst. subst position. destruct Hin as [Hin%positioned_from _]. lia.
Qed.

Section StreamIds.
Variable verifySupportedSyncModes : SyncSchemaStream → SyncSchemaStream.
Variable verifyConfigCursorField : SyncSchemaStream → SyncSchemaStream.
Hypothesis verifySupportedSyncModes_keeps :
  ∀ node, node_id (verifySupportedSyncModes node) = node_id node
          ∧ node_stream (verifySupportedSyncModes node) = node_stream node.
Hypothesis verifyConfigCursorField_keeps :
  ∀ node, node_id (verifyConfigCursorField node) = node_id node
          ∧ node_stream (verifyConfigCursorField node) = node_stream node.

(** X13. The ids of the initial schema are unique: no two of its streams
    carry the same id, and every stream carries one; so the paths of the
    violations of two of its streams differ. The imported helpers are assumed
    to keep a stream's id and descriptor. *)
Theorem useInitialSchema_ids_unique schemaStreams supportedDestinationSyncModes :
  let result :=
    streams (useInitialSchema verifySupportedSyncModes verifyConfigCursorField
               schemaStreams supportedDestinationSyncModes) in
  NoDup (node_id <$> result)
  ∧ (∀ node, node ∈ result → is_Some (node_id node))
  ∧ (∀ i j node node',
       result !! i = Some node → result !! j = Some node' → i ≠ j →
       missingPrimaryKey node ≠ missingPrimaryKey node'
       ∧ missingCursorField node ≠ missingCursorField node').
Proof.
  intros result.
  pose proof (normalize_from verifySupportedSyncModes verifyConfigCursorField
                verifySupportedSyncModes_keeps verifyConfigCursorField_keeps
                supportedDestinationSyncModes schemaStreams 0) as Hshape.
  assert (node_id <$> result
          = (λ position, Some (pretty position))
              <$> (fst <$> List.filter
                             (λ p, resolvable supportedDestinationSyncModes p.2)
                             (positioned 0 schemaStreams))) as Hids.
  { apply (f_equal (fmap fst)) in Hshape.
    rewrite <- !list_fmap_compose in Hshape. rewrite <- list_fmap_compose.
    exact Hshape. }
  assert (NoDup (node_id <$> result)) as Hunique.
  { rewrite Hids. apply NoDup_fmap_2; [|apply positions_NoDup].
    intros position position' [= Heq]. by apply (inj pretty) in Heq. }
  assert (∀ node, node ∈ result → is_Some (node_id node)) as Hsome.
  { intros node Hnode.
    assert (node_id node ∈ node_id <$> result) as Hin by by apply list_elem_of_fmap_2.
    rewrite Hids in Hin. apply list_elem_of_fmap in Hin as (position & -> & _). eauto. }
  split_and!; [done..|].
  intros i j node node' Hi Hj Hij.
  assert (idText (node_id node) ≠ idText (node_id node')) as Hdiff.
  { intros Heq.
    destruct (Hsome node) as [id Hid]; [by eapply list_elem_of_lookup_2|].
    destruct (Hsome node') as [id' Hid']; [by eapply list_elem_of_lookup_2|].
    rewrite Hid, Hid' in Heq. simpl in Heq. subst id'.
    apply Hij. apply (NoDup_lookup (node_id <$> result) i j (Some id)); [done|..].
    - by rewrite list_lookup_fmap, Hi, <- Hid.
    - by rewrite list_lookup_fmap, Hj, <- Hid'. }
  split; intros Heq;
    [apply missingPrimaryKey_inj in Heq | apply missingCursorField_inj in Heq]; done.
Qed.

End StreamIds.

Lemma useInitialSchema_ids_unique_witness :
  NoDup (node_id <$> streams (useInitialSchema keepNode repairCursorField mixedCatalog
                                (Some [DestinationSyncMode.append_dedup]))).
Proof.
  apply (useInitialSchema_ids_unique keepNode repairCursorField
           (λ node, conj eq_refl eq_refl) repairCursorField_keeps
           mixedCatalog (Some [DestinationSyncMode.append_dedup])).
Defined.

(** ** The frequency dropdown *)

(** X14. The frequency dropdown has one row per entry of the frequency table,
    in the table's order, each with the entry's schedule as its value; the row
    of an entry whose schedule is [null] is labelled with the entry's text as
    it is, whatever the formatter; the other rows are labelled by the
    formatter's "form.every" message, applied to the entry's simple text, or
    to its text when the simple text is missing or empty. *)
Theorem useFrequencyDropdownData_rows FrequencyConfig formatMessage :
  let rows := useFrequencyDropdownData FrequencyConfig formatMessage in
  item_value <$> rows = freq_config <$> FrequencyConfig
  ∧ length rows = length FrequencyConfig
  ∧ (∀ i item,
       FrequencyConfig !! i = Some item → freq_config item = null →
       ∀ formatMessage',
         useFrequencyDropdownData FrequencyConfig formatMessage' !! i
         = Some {| item_value := null; item_label := freq_text item |})
  ∧ (∀ i item,
       FrequencyConfig !! i = Some item → freq_config item ≠ null →
       (freq_simpleText item = None ∨ freq_simpleText item = Some "") →
       item_label <$> rows !! i = Some (formatMessage "form.every" (freq_text item)))
  ∧ (∀ i item simpleText,
       FrequencyConfig !! i = Some item → freq_config item ≠ null →
       freq_simpleText item = Some simpleText → simpleText ≠ "" →
       item_label <$> rows !! i = Some (formatMessage "form.every" simpleText)).
Proof.
  intros rows. subst rows. unfold useFrequencyDropdownData. split_and!.
  - rewrite <- list_fmap_compose. by apply list_fmap_ext.
  - apply length_fmap.
  - intros i item Hitem Hconfig formatMessage'.
    rewrite list_lookup_fmap, Hitem. simpl. by rewrite Hconfig.
  - intros i item Hitem Hconfig Hsimple. rewrite list_lookup_fmap, Hitem. simpl.
    destruct (freq_config item); [|done|]; by destruct Hsimple as [-> | ->].
  - intros i item simpleText Hitem Hconfig Hsimple Hne.
    rewrite list_lookup_fmap, Hitem. simpl. rewrite Hsimple. simpl.
    rewrite bool_decide_eq_false_2 by done. by destruct (freq_config item).
Qed.

(** X15. The values the dropdown offers pass the schedule rule: when every
    entry of the frequency table has a schedule that is [null] or has a
    non-empty time unit, the value of every row is accepted by the schedule
    rule; the row of the manual entry is accepted in any case. *)
Theorem useFrequencyDropdownData_accepted FrequencyConfig formatMessage row :
  (∀ item, item ∈ FrequencyConfig →
           freq_config item = null
           ∨ ∃ schedule, freq_config item = present schedule
                         ∧ sched_timeUnit schedule ≠ "") →
  row ∈ useFrequencyDropdownData FrequencyConfig formatMessage →
  scheduleSchema (scheduleValue (item_value row)) = true.
Proof.
  intros Htable (item & -> & Hitem)%list_elem_of_fmap. simpl.
  destruct (Htable item Hitem) as [-> | (schedule & -> & Hunit)]; [done|]. simpl.
  by rewrite bool_decide_eq_false_2.
Qed.

Lemma useFrequencyDropdownData_accepted_witness :
  scheduleSchema
    (scheduleValue
       (item_value {| item_value := present DEFAULT_SCHEDULE;
                      item_label := "form.every:24 hours" |}))
  = true.
Proof.
  apply (useFrequencyDropdownData_accepted frequencies everyMessage).
  - intros item Hitem. unfold frequencies in Hitem.
    apply elem_of_cons in Hitem as [-> | Hitem]; [by left|].
    apply elem_of_cons in Hitem as [-> | Hitem]; [right; by eexists|].
    apply elem_of_cons in Hitem as [-> | Hitem]; [right; by eexists|].
    by apply elem_of_nil in Hitem.
  - apply list_elem_of_lookup. by exists 2.
Defined.

(** ** Restoring the normalization choice *)

(** X17. [getInitialNormalization] restores the persisted choice: when the
    first normalization operation among the persisted operations carries an
    option, that option is the result, the raw one included, in edit mode and
    outside it; a normalization operation further down the list has no say. *)
Theorem getInitialNormalization_restores operations isEditMode position first choice :
  operations !! position = Some first →
  isNormalizationTransformation first = true →
  (∀ earlier op, earlier < position → operations !! earlier = Some op →
                 isNormalizationTransformation op = false)%nat →
  oc_normalization (op_operatorConfiguration first) ≫= norm_option = Some choice →
  getInitialNormalization (Some operations) isEditMode = choice.
Proof.
  intros Hfirst Hnorm Hearlier Hchoice.
  assert (find isNormalizationTransformation operations = Some first) as Hfind.
  { clear Hchoice. revert position Hfirst Hearlier.
    induction operations as [|op rest IH]; intros position Hfirst Hearlier; [done|].
    destruct position as [|position]; simpl in *.
    - injection Hfirst as ->. by rewrite Hnorm.
    - rewrite (Hearlier 0 op) by (done || lia).
      apply (IH position Hfirst). intros earlier op' Hlt Hop'.
      apply (Hearlier (S earlier) op'); [lia|done]. }
  by rewrite (getInitialNormalization_first _ _ _ Hfind), Hchoice.
Qed.

Lemma getInitialNormalization_restores_witness :
  getInitialNormalization
    (Some (twoTransformations ++ [rawNormalization; persistedNormalization]))
    (Some true)
  = NormalizationType.RAW.
Proof.
  apply (getInitialNormalization_restores
           (twoTransformations ++ [rawNormalization; persistedNormalization])
           (Some true) 2 rawNormalization NormalizationType.RAW).
  - reflexivity.
  - reflexivity.
  - intros [|[|earlier]] op Hlt; simpl; [by intros [= <-]..|lia].
  - reflexivity.
Defined.
